(** * Tennis ATP API: a shallow embedding of [app.py]

    The development follows the source file top to bottom: the loader
    ([load_data]), then the query routes ([list_players], [player_stats],
    [head_to_head], [list_tournaments], [tournament_details]).

    Conventions.
    - A pandas frame is a [DataFrame]: its column labels and its rows, the
      rows being typed records.  A missing value (NaN / None) is [None].
    - A Python exception is [Raise e]; a Flask answer [(jsonify(..), 404)]
      is [NotFound msg], a plain [jsonify(..)] is [OK body].
    - Text is [string], the UTF-8 bytes of a Python [str].  [lower] folds
      the letters [A]-[Z]; it is [str.lower()] on the ASCII constants of the
      source.  On table and query text, where Python folds every cased
      character of Unicode, [str.lower()] is the operation [str_lower] of
      the class [Runtime].
    - The wall clock read by [datetime.now()] is an explicit argument [now].
    - Library operations whose full behaviour is not reproduced here (regular
      expressions, case folding, [int()], the sort behind [sort_values], the
      text form of a date) are the operations of the class [Runtime]; the
      queries are parametric in it, and [py_runtime] is an executable
      instance. *)

From Stdlib Require Import ZArith Ascii String Floats.
From stdpp Require Import base list strings gmap sorting pretty.

Local Open Scope string_scope.
Local Open Scope Z_scope.

(** ** Exceptions and results *)

Inductive exn :=
  | KeyError (key : string)
  | IndexError
  | ValueError
  | FileNotFoundError
  | AttributeError
  | re_error.

Inductive result (A : Type) :=
  | Return (a : A)
  | Raise (e : exn).
Arguments Return {A} a.
Arguments Raise {A} e.

#[global] Instance result_ret : MRet result := λ A a, Return a.
#[global] Instance result_bind : MBind result := λ A B f m,
  match m with
  | Return a => f a
  | Raise e => Raise e
  end.

(** What a route hands back to Flask. *)
Inductive response (A : Type) :=
  | OK (body : A)
  | NotFound (error : string).
Arguments OK {A} body.
Arguments NotFound {A} error.

Definition status_code {A} (r : response A) : Z :=
  match r with
  | OK _ => 200
  | NotFound _ => 404
  end.

(** ** Strings *)

Definition lower_ascii (c : ascii) : ascii :=
  let n := N_of_ascii c in
  if ((65 <=? n) && (n <=? 90))%N then ascii_of_N (n + 32) else c.

(** [s.lower()] for a text of ASCII characters, such as the constants
    ["Hard"], ["Clay"] and ["Grass"] of [player_stats]. *)
Fixpoint lower (s : string) : string :=
  match s with
  | EmptyString => EmptyString
  | String c s' => String (lower_ascii c) (lower s')
  end.

(** [sub in s] *)
Fixpoint str_in (sub s : string) : bool :=
  String.prefix sub s ||
  match s with
  | EmptyString => false
  | String _ s' => str_in sub s'
  end.

(** [s.replace("%20", " ")] *)
Fixpoint replace_pct20 (s : string) : string :=
  match s with
  | String "%" (String "2" (String "0" s')) => String " " (replace_pct20 s')
  | String c s' => String c (replace_pct20 s')
  | EmptyString => EmptyString
  end.

(** [s.split(sep)] for a one-character separator *)
Fixpoint split_on (sep : ascii) (s : string) : list string :=
  match s with
  | EmptyString => [EmptyString]
  | String c s' =>
      if Ascii.eqb c sep then EmptyString :: split_on sep s'
      else match split_on sep s' with
           | h :: t => String c h :: t
           | [] => [String c EmptyString]
           end
  end.

(** [s[:n]] for [n >= 0] *)
Fixpoint str_take (n : nat) (s : string) : string :=
  match n, s with
  | S n', String c s' => String c (str_take n' s')
  | _, _ => EmptyString
  end.

(** [l[:limit]]: a negative limit counts from the end. *)
Definition slice_to {A} (limit : Z) (l : list A) : list A :=
  if 0 <=? limit then take (Z.to_nat limit) l
  else take (Z.to_nat (Z.of_nat (length l) + limit)) l.

(** ** Floats: [wins / n * 100] and [round(x, 1)] *)

(** A count as a binary64 value; the conversion is exact below [2^53], far
    above any number of rows, so that [Z2float k / Z2float n] is the
    correctly rounded quotient Python computes for [k / n]. *)
Definition Z2float (z : Z) : float := PrimFloat.of_uint63 (Uint63.of_Z z).

(** [round(x, 1)] on a binary64 value: the decimal with one digit after the
    point nearest to the exact value of [x] (ties to the even digit), read
    back as the nearest binary64. *)
Definition py_round1 (x : float) : float :=
  match Prim2SF x with
  | S754_finite s m e =>
      if 0 <=? e then x else
      let num := Z.pos m * 10 in
      let den := 2 ^ (- e) in
      let q := num / den in
      let r := num mod den in
      let n := if 2 * r <? den then q
               else if den <? 2 * r then q + 1
               else if Z.even q then q else q + 1 in
      let y := (Z2float n / 10)%float in
      if s then (- y)%float else y
  | _ => x
  end.

(** [round(k / n * 100, 1)] for two counts *)
Definition win_rate_of (k n : Z) : float :=
  py_round1 (Z2float k / Z2float n * 100)%float.

(** ** Tables *)

Record DataFrame (R : Type) := mkDataFrame {
  columns : list string;
  rows : list R
}.
Arguments mkDataFrame {R} columns rows.
Arguments columns {R} d.
Arguments rows {R} d.

(** [pd.DataFrame()]: no column, no row *)
Definition empty_frame {R} : DataFrame R := mkDataFrame [] [].

(** [len(df)] *)
Definition len {R} (df : DataFrame R) : Z := Z.of_nat (length (rows df)).

(** A row of [dim_players.parquet] *)
Record PlayerRow := mkPlayer {
  player_id : Z;
  player_name : option string
}.

(** A row of [dim_tournaments.parquet] *)
Record TournamentRow := mkTournament {
  dt_tournament_id : Z;
  dt_Tournament : option string;
  dt_Surface : option string;
  dt_Series : option string
}.

(** A row of one [data.parquet] partition of [fact_matches] *)
Record Match := mkMatch {
  p1_id : Z;
  p2_id : Z;
  winner_id : Z;
  tournament_id : Z;
  Date : Z;
  Round : string;
  Score : string
}.

(** A fact row once [df["year"]] and [df["month"]] are set *)
Record FactRow := mkFact {
  row_match :> Match;
  year : Z;
  month : Z
}.

(** A row of [fact_plus]: the fact row and what each of the four merges
    attached to it ([None]: the lookup missed and the columns are NaN). *)
Record Enriched := mkEnriched {
  fact :> FactRow;
  p1_row : option PlayerRow;
  p2_row : option PlayerRow;
  w_row : option PlayerRow;
  t_row : option TournamentRow
}.

Definition p1_player_id (m : Enriched) : option Z := player_id <$> p1_row m.
Definition p1_name (m : Enriched) : option string := p1_row m ≫= player_name.
Definition p2_player_id (m : Enriched) : option Z := player_id <$> p2_row m.
Definition p2_name (m : Enriched) : option string := p2_row m ≫= player_name.
Definition w_player_id (m : Enriched) : option Z := player_id <$> w_row m.
Definition winner_name (m : Enriched) : option string := w_row m ≫= player_name.
Definition Tournament (m : Enriched) : option string := t_row m ≫= dt_Tournament.
Definition Surface (m : Enriched) : option string := t_row m ≫= dt_Surface.
Definition Series (m : Enriched) : option string := t_row m ≫= dt_Series.

#[global] Instance PlayerRow_eq_dec : EqDecision PlayerRow.
Proof. solve_decision. Defined.
#[global] Instance TournamentRow_eq_dec : EqDecision TournamentRow.
Proof. solve_decision. Defined.
#[global] Instance Match_eq_dec : EqDecision Match.
Proof. solve_decision. Defined.
#[global] Instance FactRow_eq_dec : EqDecision FactRow.
Proof. solve_decision. Defined.
#[global] Instance Enriched_eq_dec : EqDecision Enriched.
Proof. solve_decision. Defined.

Definition player_columns : list string := ["player_id"; "player_name"].
Definition tournament_columns : list string :=
  ["tournament_id"; "Tournament"; "Surface"; "Series"].
Definition match_columns : list string :=
  ["p1_id"; "p2_id"; "winner_id"; "tournament_id"; "Date"; "Round"; "Score"].

(** [series == value] on a nullable text column: NaN equals nothing. *)
Definition col_eq (x : option string) (v : option string) : bool :=
  match x, v with
  | Some a, Some b => bool_decide (a = b)
  | _, _ => false
  end.

(** [df.rename(columns=mapping)]: unknown labels are left alone. *)
Definition rename {R} (mapping : list (string * string)) (df : DataFrame R)
  : DataFrame R :=
  mkDataFrame
    ((λ c, match list_find (λ p, p.1 = c) mapping with
           | Some (_, (_, c')) => c'
           | None => c
           end) <$> columns df)
    (rows df).

(** [df["label"] = value]: the column is appended when it is new. *)
Definition set_column {R R'} (label : string) (f : R → R') (df : DataFrame R)
  : DataFrame R' :=
  mkDataFrame
    (if bool_decide (label ∈ columns df) then columns df
     else columns df ++ [label])
    (f <$> rows df).

(** [pd.concat(parts, ignore_index=True)] *)
Definition concat_frames {R} (parts : list (DataFrame R)) : DataFrame R :=
  mkDataFrame (remove_dups (mjoin (columns <$> parts))) (mjoin (rows <$> parts)).

(** The rows of a left join: every left row is kept, in order; it is paired
    with each right row of the same key, or with NaN columns when no right
    row has it. *)
Definition left_join {L R LR} (lkey : L → Z) (rkey : R → Z)
    (pack : L → option R → LR) (left : list L) (right : list R) : list LR :=
  left ≫= λ l,
    match filter (λ r, rkey r = lkey l) right with
    | [] => [pack l None]
    | rs => pack l ∘ Some <$> rs
    end.

(** [left.merge(right, left_on=.., right_on=.., how="left")].  A key label
    that is not a column of its frame raises [KeyError]; [shared] is true for
    [on=..], where the key column appears once in the result. *)
Definition merge {L R LR} (left : DataFrame L) (right : DataFrame R)
    (left_on right_on : string) (lkey : L → Z) (rkey : R → Z)
    (pack : L → option R → LR) : result (DataFrame LR) :=
  if bool_decide (right_on ∈ columns right) then
    if bool_decide (left_on ∈ columns left) then
      Return (mkDataFrame
        (columns left ++
         filter (λ c, ¬ (left_on = right_on ∧ c = right_on)) (columns right))
        (left_join lkey rkey pack (rows left) (rows right)))
    else Raise (KeyError left_on)
  else Raise (KeyError right_on).

(** ** Storage: what [load_data] finds under [pipeline_output] *)

Record MonthDir := mkMonthDir {
  month_dir_name : string;
  month_is_dir : bool;
  data_parquet : option (list Match)     (* [None]: no data.parquet inside *)
}.

Record YearDir := mkYearDir {
  year_dir_name : string;
  year_is_dir : bool;
  year_iterdir : list MonthDir
}.

Record Storage := mkStorage {
  dim_players_parquet : option (list PlayerRow);
  dim_tournaments_parquet : option (list TournamentRow);
  fact_dir : option (list YearDir)       (* [None]: fact_matches is absent *)
}.

(** The four globals set by [load_data] *)
Record Snapshot := mkSnapshot {
  dim_players : DataFrame PlayerRow;
  dim_tournaments : DataFrame TournamentRow;
  fact_matches : DataFrame FactRow;
  fact_plus : DataFrame Enriched
}.

(** ** Library operations the source relies on *)

(** The operations of Python and pandas that the routes call and whose full
    behaviour is not reproduced here.
    - [re_compile_ignorecase pat] is [re.compile(pat, flags=re.IGNORECASE)],
      which [Series.str.contains(pat, case=False)] runs once, before looking
      at any row ([regex=True] is the default); [None] stands for [re.error].
    - [re_search p s] is [p.search(s) is not None].
    - [str_lower s] is [s.lower()], and [Series.str.lower()] on one cell,
      for any text.
    - [py_int s] is [int(s)]; [None] stands for [ValueError].
    - [sort_values_Date_desc] is [df.sort_values("Date", ascending=False)]:
      the default sort is not stable, so only its two guarantees are kept.
    - [astype_str d] is the text [astype(str)] gives for a [Date] value. *)
Class Runtime := {
  Pattern : Type;
  re_compile_ignorecase : string → option Pattern;
  re_search : Pattern → string → bool;
  str_lower : string → string;
  py_int : string → option Z;
  sort_values_Date_desc : list Enriched → list Enriched;
  sort_values_Date_desc_perm :
    ∀ l, sort_values_Date_desc l ≡ₚ l;
  sort_values_Date_desc_sorted :
    ∀ l, Sorted (λ a b : Enriched, Date b ≤ Date a) (sort_values_Date_desc l);
  astype_str : Z → string
}.

(** ** Answers of the routes *)

Record PlayerList := mkPlayerList {
  pl_count : Z;
  pl_total : Z;
  pl_players : list (option string)
}.

Record Career := mkCareer {
  total_matches : Z;
  wins : Z;
  losses : Z;
  win_rate : float
}.

Record SurfaceStats := mkSurfaceStats {
  s_matches : Z;
  s_wins : Z;
  s_losses : Z;
  s_win_rate : float
}.

Record PlayerStats := mkPlayerStats {
  ps_player : option string;
  ps_career : Career;
  ps_by_surface : gmap string SurfaceStats;
  ps_generated_at : string
}.

Record H2HCounts := mkH2HCounts {
  p1_wins : Z;
  p2_wins : Z;
  total : Z
}.

Record RecentMatch := mkRecentMatch {
  rm_Date : string;
  rm_Tournament : option string;
  rm_Round : string;
  rm_Surface : option string;
  rm_winner_name : option string;
  rm_Score : string
}.

Record HeadToHead := mkHeadToHead {
  h_player_1 : option string;
  h_player_2 : option string;
  h_head_to_head : H2HCounts;
  h_recent_matches : list RecentMatch;
  h_generated_at : string
}.

Record TournamentInfo := mkTournamentInfo {
  ti_Tournament : option string;
  ti_Series : option string;
  ti_Surface : option string
}.

Record TournamentList := mkTournamentList {
  tl_count : Z;
  tl_total : Z;
  tl_tournaments : list TournamentInfo
}.

Record Champion := mkChampion {
  ch_year : string;
  ch_champion : option string;
  ch_score : string
}.

Record TournamentDetails := mkTournamentDetails {
  td_tournament : option string;
  td_surface : option string;
  td_series : option string;
  td_total_matches : Z;
  td_recent_champions : list Champion;
  td_generated_at : string
}.

Section App.
Context `{Runtime}.

(** ** [load_data] *)

Fixpoint foldM {A B} (f : B → A → result B) (l : list A) (b : B) : result B :=
  match l with
  | [] => Return b
  | a :: l' => b' ← f b a; foldM f l' b'
  end.

(** [pd.read_parquet(path)] of a table with a known schema *)
Definition read_parquet {R} (schema : list string) (file : option (list R))
  : result (DataFrame R) :=
  match file with
  | Some rs => Return (mkDataFrame schema rs)
  | None => Raise FileNotFoundError
  end.

(** [df[labels]] *)
Definition select_columns {R} (labels : list string) (df : DataFrame R)
  : result (DataFrame R) :=
  match list_find (λ c, c ∉ columns df) labels with
  | Some (_, c) => Raise (KeyError c)
  | None => Return (mkDataFrame labels (rows df))
  end.

(** [int(dir.name.split("=")[1])] *)
Definition partition_value (name : string) : result Z :=
  match split_on "=" name !! 1%nat with
  | None => Raise IndexError
  | Some v =>
      match py_int v with
      | Some z => Return z
      | None => Raise ValueError
      end
  end.

(** The body of the inner loop of [load_data], for one entry of a year
    directory. *)
Definition load_month (year_dir : YearDir)
    (fact_parts : list (DataFrame FactRow)) (month_dir : MonthDir)
  : result (list (DataFrame FactRow)) :=
  if month_is_dir month_dir then
    match data_parquet month_dir with
    | Some ms =>
        let df := mkDataFrame match_columns ms in
        year ← partition_value (year_dir_name year_dir);
        month ← partition_value (month_dir_name month_dir);
        let df := set_column "year" (λ m, (m, year)) df in
        let df := set_column "month" (λ r, mkFact r.1 r.2 month) df in
        Return (fact_parts ++ [df])%list
    | None => Return fact_parts
    end
  else Return fact_parts.

(** The body of the outer loop, for one entry of [fact_matches]. *)
Definition load_year (fact_parts : list (DataFrame FactRow))
    (year_dir : YearDir) : result (list (DataFrame FactRow)) :=
  if year_is_dir year_dir then
    foldM (load_month year_dir) (year_iterdir year_dir) fact_parts
  else Return fact_parts.

Definition load_fact_parts (st : Storage) : result (list (DataFrame FactRow)) :=
  match fact_dir st with
  | Some year_dirs => foldM load_year year_dirs []
  | None => Return []
  end.

(** The four chained left merges that build [fact_plus]. *)
Definition build_enriched (dim_players : DataFrame PlayerRow)
    (dim_tournaments : DataFrame TournamentRow)
    (fact_matches : DataFrame FactRow) : result (DataFrame Enriched) :=
  m1 ← merge fact_matches
         (rename [("player_name", "p1_name"); ("player_id", "p1_player_id")]
                 dim_players)
         "p1_id" "p1_player_id"
         (λ f : FactRow, p1_id f) player_id pair;
  m2 ← merge m1
         (rename [("player_name", "p2_name"); ("player_id", "p2_player_id")]
                 dim_players)
         "p2_id" "p2_player_id"
         (λ r : FactRow * option PlayerRow, p2_id r.1) player_id pair;
  m3 ← merge m2
         (rename [("player_name", "winner_name"); ("player_id", "w_player_id")]
                 dim_players)
         "winner_id" "w_player_id"
         (λ r : FactRow * option PlayerRow * option PlayerRow,
            winner_id r.1.1) player_id pair;
  dt ← select_columns ["tournament_id"; "Tournament"; "Surface"; "Series"]
         dim_tournaments;
  merge m3 dt "tournament_id" "tournament_id"
    (λ r : FactRow * option PlayerRow * option PlayerRow * option PlayerRow,
       tournament_id r.1.1.1) dt_tournament_id
    (λ r t, mkEnriched r.1.1.1 r.1.1.2 r.1.2 r.2 t).

Definition load_data (st : Storage) : result Snapshot :=
  dim_players ← read_parquet player_columns (dim_players_parquet st);
  dim_tournaments ←
    read_parquet tournament_columns (dim_tournaments_parquet st);
  fact_parts ← load_fact_parts st;
  let fact_matches :=
    match fact_parts with
    | [] => empty_frame
    | _ => concat_frames fact_parts
    end in
  fact_plus ← build_enriched dim_players dim_tournaments fact_matches;
  Return (mkSnapshot dim_players dim_tournaments fact_matches fact_plus).

(** ** Query routes *)

(** [series.str.contains(pat, case=False, na=False)]: the pattern is compiled
    first; the answer is the test applied to each cell, NaN giving [False]. *)
Definition str_contains (pat : string) : result (option string → bool) :=
  match re_compile_ignorecase pat with
  | Some p =>
      Return (λ x, match x with
                   | Some s => re_search p s
                   | None => false
                   end)
  | None => Raise re_error
  end.

(** [int(request.args.get("limit", 50))] *)
Definition limit_arg (limit : option string) : result Z :=
  match limit with
  | Some s =>
      match py_int s with
      | Some z => Return z
      | None => Raise ValueError
      end
  | None => Return 50
  end.

(** [[p for p in players if search in p.lower()]] *)
Fixpoint search_players (search : string) (players : list (option string))
  : result (list (option string)) :=
  match players with
  | [] => Return []
  | None :: _ => Raise AttributeError
  | Some p :: ps =>
      rest ← search_players search ps;
      Return (if str_in search (str_lower p) then Some p :: rest else rest)
  end.

Definition list_players (snap : Snapshot) (q limit : option string)
  : result (response PlayerList) :=
  let search := str_lower (default "" q) in
  limit ← limit_arg limit;
  let players := player_name <$> rows (dim_players snap) in
  players ← (if bool_decide (search = "") then Return players
             else search_players search players);
  Return (OK (mkPlayerList
    (Z.of_nat (length (slice_to limit players)))
    (Z.of_nat (length players))
    (slice_to limit players))).

(** The rows of [table] whose name cell contains [query], in table order:
    [table[table[col].str.contains(query, case=False, na=False)]]. *)
Definition matching_rows {R} (name_of : R → option string) (table : list R)
    (query : string) : result (list R) :=
  str_contains query ≫= λ contains : option string → bool,
  Return (filter (λ r, contains (name_of r)) table).

(** [all_matches] of [player_stats]: the rows where the player is named as
    p1, then those where they are named as p2, each with its [is_win]. *)
Definition player_matches (fact_plus : list Enriched)
    (player_name : option string) : list (Enriched * bool) :=
  let p1_matches :=
    (λ m : Enriched, (m, bool_decide (winner_id m = p1_id m))) <$>
    filter (λ m, col_eq (p1_name m) player_name) fact_plus in
  let p2_matches :=
    (λ m : Enriched, (m, bool_decide (winner_id m = p2_id m))) <$>
    filter (λ m, col_eq (p2_name m) player_name) fact_plus in
  p1_matches ++ p2_matches.

(** [int(df["is_win"].sum())] *)
Definition sum_is_win (ms : list (Enriched * bool)) : Z :=
  Z.of_nat (length (filter (λ r, r.2 = true) ms)).

(** One turn of the loop over [["Hard", "Clay", "Grass"]]. *)
Definition surface_step (all_matches : list (Enriched * bool))
    (surface_stats : gmap string SurfaceStats) (surface : string)
  : gmap string SurfaceStats :=
  let s_matches :=
    filter (λ r, col_eq (Surface r.1) (Some surface)) all_matches in
  if 0 <? Z.of_nat (length s_matches) then
    let s_wins := sum_is_win s_matches in
    <[lower surface :=
        mkSurfaceStats (Z.of_nat (length s_matches)) s_wins
          (Z.of_nat (length s_matches) - s_wins)
          (win_rate_of s_wins (Z.of_nat (length s_matches)))]> surface_stats
  else surface_stats.

Definition surface_breakdown (all_matches : list (Enriched * bool))
  : gmap string SurfaceStats :=
  foldl (surface_step all_matches) ∅ ["Hard"; "Clay"; "Grass"].

Definition player_stats (snap : Snapshot) (now : string) (name : string)
  : result (response PlayerStats) :=
  let player_name' := replace_pct20 name in
  matches ← matching_rows player_name (rows (dim_players snap)) player_name';
  match matches with
  | [] => Return (NotFound ("Player '" +:+ player_name' +:+ "' not found"))
  | first :: _ =>
      let player_name' := player_name first in
      let all_matches :=
        player_matches (rows (fact_plus snap)) player_name' in
      if bool_decide (length all_matches = 0%nat) then
        Return (NotFound "No matches found for player")
      else
        let wins := sum_is_win all_matches in
        let losses := Z.of_nat (length all_matches) - wins in
        Return (OK (mkPlayerStats player_name'
          (mkCareer (Z.of_nat (length all_matches)) wins losses
             (win_rate_of wins (Z.of_nat (length all_matches))))
          (surface_breakdown all_matches)
          now))
  end.

(** The rows selected by [head_to_head], most recent first. *)
Definition h2h_rows (fact_plus : list Enriched) (p1 p2 : string)
  : result (list Enriched) :=
  str_contains p1 ≫= λ c1 : option string → bool,
  str_contains p2 ≫= λ c2 : option string → bool,
  Return (sort_values_Date_desc
    (filter (λ m : Enriched,
               (c1 (p1_name m) && c2 (p2_name m)) ||
               (c2 (p1_name m) && c1 (p2_name m)))
            fact_plus)).

(** [df["Date"].astype(str).str[:10]] *)
Definition date10 (d : Z) : string := str_take 10 (astype_str d).

Definition recent_match (m : Enriched) : RecentMatch :=
  mkRecentMatch (date10 (Date m)) (Tournament m) (Round m) (Surface m)
    (winner_name m) (Score m).

(** [len(h2h[h2h["winner_name"] == name])] *)
Definition count_wins (h2h : list Enriched) (name : option string) : Z :=
  Z.of_nat (length (filter (λ m, col_eq (winner_name m) name) h2h)).

Definition head_to_head (snap : Snapshot) (now : string)
    (player1 player2 : string) : result (response HeadToHead) :=
  let p1 := replace_pct20 player1 in
  let p2 := replace_pct20 player2 in
  h2h ← h2h_rows (rows (fact_plus snap)) p1 p2;
  match h2h with
  | [] => Return (NotFound "No head-to-head matches found")
  | first :: _ =>
      let actual_p1 := p1_name first in
      let actual_p2 := p2_name first in
      Return (OK (mkHeadToHead actual_p1 actual_p2
        (mkH2HCounts (count_wins h2h actual_p1) (count_wins h2h actual_p2)
           (Z.of_nat (length h2h)))
        (recent_match <$> take 10 h2h)
        now))
  end.

Definition tournament_info (t : TournamentRow) : TournamentInfo :=
  mkTournamentInfo (dt_Tournament t) (dt_Series t) (dt_Surface t).

Definition list_tournaments (snap : Snapshot) (limit surface : option string)
  : result (response TournamentList) :=
  limit ← limit_arg limit;
  let tournaments := rows (dim_tournaments snap) in
  let tournaments :=
    match surface with
    | Some s =>
        if bool_decide (s = "") then tournaments
        else filter (λ t, col_eq (str_lower <$> dt_Surface t)
                            (Some (str_lower s)))
               tournaments
    | None => tournaments
    end in
  Return (OK (mkTournamentList
    (Z.of_nat (length (slice_to limit tournaments)))
    (Z.of_nat (length tournaments))
    (tournament_info <$> slice_to limit tournaments))).

(** [matches[matches["Round"] == "The Final"].sort_values("Date",
    ascending=False).head(10)] *)
Definition recent_finals (matches : list Enriched) : list Enriched :=
  take 10 (sort_values_Date_desc
             (filter (λ m : Enriched, Round m = "The Final") matches)).

Definition champion (m : Enriched) : Champion :=
  mkChampion (date10 (Date m)) (winner_name m) (Score m).

Definition tournament_details (snap : Snapshot) (now : string)
    (name : string) : result (response TournamentDetails) :=
  let tournament_name := replace_pct20 name in
  matches ← matching_rows Tournament (rows (fact_plus snap)) tournament_name;
  match matches with
  | [] => Return (NotFound "Tournament not found")
  | first :: _ =>
      Return (OK (mkTournamentDetails (Tournament first) (Surface first)
        (Series first) (Z.of_nat (length matches))
        (champion <$> recent_finals matches)
        now))
  end.

End App.

(** ** [health] *)

Record Health := mkHealth {
  he_status : string;
  he_timestamp : string;
  he_players : Z;
  he_tournaments : Z;
  he_matches : Z
}.

Definition health (snap : Snapshot) (now : string) : response Health :=
  OK (mkHealth "healthy" now
        (len (dim_players snap)) (len (dim_tournaments snap))
        (len (fact_matches snap))).

(** ** An executable runtime *)

(** Regular expressions, for the patterns made of ordinary characters, the
    wildcard [.] and backslash-escaped punctuation.  A pattern that uses any
    other construct of [re] (repetition, alternation, groups, classes,
    anchors) is outside this fragment; [compile_fragment] answers [None] for
    it, as it does for the patterns [re] itself rejects, such as an
    unclosed parenthesis.  Nothing stated for every [Runtime] depends on
    this choice. *)
Module Re.

Inductive atom :=
  | Lit (c : ascii)
  | AnyChar.

Definition special (c : ascii) : bool :=
  str_in (String c EmptyString) ".^$*+?{}[]\|()".

Fixpoint compile_fragment (pat : string) : option (list atom) :=
  match pat with
  | EmptyString => Some []
  | String "\" EmptyString => None
  | String "\" (String c pat') =>
      if special c then cons (Lit c) <$> compile_fragment pat' else None
  | String "." pat' => cons AnyChar <$> compile_fragment pat'
  | String c pat' =>
      if special c then None else cons (Lit c) <$> compile_fragment pat'
  end.

(** Under [re.IGNORECASE] a literal matches either case of its letter; the
    wildcard matches everything but a newline. *)
Definition atom_matches (a : atom) (d : ascii) : bool :=
  match a with
  | Lit c => Ascii.eqb (lower_ascii c) (lower_ascii d)
  | AnyChar => negb (Ascii.eqb d "010")
  end.

Fixpoint match_here (p : list atom) (s : string) : bool :=
  match p, s with
  | [], _ => true
  | a :: p', String d s' => atom_matches a d && match_here p' s'
  | _ :: _, EmptyString => false
  end.

Fixpoint search (p : list atom) (s : string) : bool :=
  match_here p s ||
  match s with
  | EmptyString => false
  | String _ s' => search p s'
  end.

End Re.

(** [int(s)] for an optional sign followed by decimal digits. *)
Fixpoint digits_value (acc : Z) (s : string) : option Z :=
  match s with
  | EmptyString => Some acc
  | String c s' =>
      let n := N_of_ascii c in
      if ((48 <=? n) && (n <=? 57))%N
      then digits_value (10 * acc + Z.of_N (n - 48)) s'
      else None
  end.

Definition int_of_string (s : string) : option Z :=
  match s with
  | EmptyString | String "+" EmptyString | String "-" EmptyString => None
  | String "-" s' => Z.opp <$> digits_value 0 s'
  | String "+" s' => digits_value 0 s'
  | _ => digits_value 0 s
  end.

(** A [Date] counted in days since 1970-01-01, written [YYYY-MM-DD]. *)
Definition pad0 (width : nat) (s : string) : string :=
  String.concat "" (replicate (width - String.length s) "0") +:+ s.

Definition iso_date (days : Z) : string :=
  let z := days + 719468 in
  let era := z / 146097 in
  let doe := z mod 146097 in
  let yoe := (doe - doe / 1460 + doe / 36524 - doe / 146096) / 365 in
  let doy := doe - (365 * yoe + yoe / 4 - yoe / 100) in
  let mp := (5 * doy + 2) / 153 in
  let d := doy - (153 * mp + 2) / 5 + 1 in
  let m := if mp <? 10 then mp + 3 else mp - 9 in
  let y := yoe + era * 400 + (if m <=? 2 then 1 else 0) in
  pad0 4 (pretty y) +:+ "-" +:+ pad0 2 (pretty m) +:+ "-" +:+ pad0 2 (pretty d).

Definition Date_desc (a b : Enriched) : Prop := Date b ≤ Date a.

#[global] Instance Date_desc_dec : RelDecision Date_desc.
Proof. intros a b. unfold Date_desc. apply _. Defined.

(** The instance folds case with [lower] and reads text byte by byte: it
    is Python's behaviour on ASCII text, which is all the datasets below
    hold. *)
Definition py_runtime : Runtime := {|
  Pattern := list Re.atom;
  re_compile_ignorecase := Re.compile_fragment;
  re_search := Re.search;
  str_lower := lower;
  py_int := int_of_string;
  sort_values_Date_desc := merge_sort Date_desc;
  sort_values_Date_desc_perm := merge_sort_Permutation Date_desc;
  sort_values_Date_desc_sorted :=
    @Sorted_merge_sort _ Date_desc _
      (λ a b : Enriched, Z.le_ge_cases (Date b) (Date a));
  astype_str := iso_date
|}.

(** ** Two small datasets *)

Module Atp.

Definition nadal := mkPlayer 1 (Some "Rafael Nadal").
Definition federer := mkPlayer 2 (Some "Roger Federer").
Definition tsonga := mkPlayer 4 (Some "Jo-Wilfried Tsonga").
Definition youzhny := mkPlayer 5 (Some "Mikhail Youzhny").
Definition djokovic := mkPlayer 6 (Some "Novak Djokovic").
Definition cilic := mkPlayer 7 (Some "Marin Cilic").
Definition murray := mkPlayer 8 (Some "Andy Murray").

Definition roland_garros :=
  mkTournament 10 (Some "Roland Garros") (Some "Clay") (Some "Grand Slam").
Definition wimbledon :=
  mkTournament 11 (Some "Wimbledon") (Some "Grass") (Some "Grand Slam").
Definition japan_open :=
  mkTournament 20 (Some "Japan Open") (Some "Hard") (Some "ATP500").
Definition china_open :=
  mkTournament 21 (Some "China Open") (Some "Hard") (Some "ATP500").

(** 2008-06-08, 2008-07-06 and 2009-10-11 are days 14038, 14066 and 14528. *)
Definition paris_2008 := mkMatch 1 2 1 10 14038 "The Final" "6-1 6-3 6-0".
Definition paris_2008_r1 := mkMatch 1 99 1 10 14024 "1st Round" "7-5 6-3 6-1".
Definition london_2008 :=
  mkMatch 2 1 1 11 14066 "The Final" "6-4 6-4 6-7 6-7 9-7".
Definition tokyo_2009 := mkMatch 4 5 4 20 14528 "The Final" "6-3 6-3".
Definition beijing_2009 := mkMatch 6 7 6 21 14528 "The Final" "6-2 7-6".

Definition storage : Storage :=
  mkStorage
    (Some [nadal; federer; tsonga; youzhny; djokovic; cilic; murray])
    (Some [roland_garros; wimbledon; japan_open; china_open])
    (Some [mkYearDir "year=2008" true
             [mkMonthDir "month=6" true (Some [paris_2008_r1; paris_2008]);
              mkMonthDir "month=7" true (Some [london_2008]);
              mkMonthDir "month=8" true None];
           mkYearDir "_SUCCESS" false [];
           mkYearDir "year=2009" true
             [mkMonthDir "month=10" true (Some [tokyo_2009; beijing_2009])]]).

Definition snapshot : Snapshot :=
  match load_data (H := py_runtime) storage with
  | Return snap => snap
  | Raise _ => mkSnapshot empty_frame empty_frame empty_frame empty_frame
  end.

(** The dimension tables are there, but no partition holds a data file. *)
Definition storage_without_partitions : Storage :=
  mkStorage (Some [nadal; federer]) (Some [wimbledon])
    (Some [mkYearDir "year=2008" true [mkMonthDir "month=6" true None];
           mkYearDir "_SUCCESS" false []]).

End Atp.

(** Two players of the same name. *)
Module Smiths.

Definition smith1 := mkPlayer 1 (Some "John Smith").
Definition smith2 := mkPlayer 2 (Some "John Smith").
Definition brown := mkPlayer 3 (Some "Bob Brown").

Definition open := mkTournament 30 (Some "City Open") (Some "Hard") (Some "ATP250").

Definition match_a := mkMatch 1 3 1 30 15000 "1st Round" "6-4 6-4".
Definition match_b := mkMatch 2 3 3 30 15001 "1st Round" "6-2 6-2".
Definition match_c := mkMatch 1 2 1 30 15002 "2nd Round" "7-6 7-6".

Definition storage : Storage :=
  mkStorage (Some [smith1; smith2; brown]) (Some [open])
    (Some [mkYearDir "year=2011" true
             [mkMonthDir "month=1" true (Some [match_a; match_b; match_c])]]).

Definition snapshot : Snapshot :=
  match load_data (H := py_runtime) storage with
  | Return snap => snap
  | Raise _ => mkSnapshot empty_frame empty_frame empty_frame empty_frame
  end.

End Smiths.

(** ** Notions used in the statements *)

(** The right row of key [k], when there is one: the dimension lookup. *)
Definition find_row {R} (rkey : R → Z) (right : list R) (k : Z) : option R :=
  head (filter (λ r, rkey r = k) right).

(** What a left join attaches to a left row of key [k]. *)
Definition join_hit {R} (rkey : R → Z) (right : list R) (k : Z)
    (o : option R) : Prop :=
  match o with
  | Some r => r ∈ right ∧ rkey r = k
  | None => ∀ r, r ∈ right → rkey r ≠ k
  end.

(** The collection as the specification words it: the matches in which the
    player of identifier [pid] is p1 or p2, each won exactly when
    [winner_id] is [pid]. *)
Definition collects_matches_of (fact_plus : list Enriched) (pid : Z)
    (all_matches : list (Enriched * bool)) : Prop :=
  (∀ m : Enriched,
     m ∈ all_matches.*1 ↔ m ∈ fact_plus ∧ (p1_id m = pid ∨ p2_id m = pid)) ∧
  (∀ (m : Enriched) (is_win : bool),
     (m, is_win) ∈ all_matches → (is_win = true ↔ winner_id m = pid)).

(** The row [build_enriched] makes of a fact row when identifiers are
    unique. *)
Definition enrich (players : list PlayerRow) (tournaments : list TournamentRow)
    (f : FactRow) : Enriched :=
  mkEnriched f
    (find_row player_id players (p1_id f))
    (find_row player_id players (p2_id f))
    (find_row player_id players (winner_id f))
    (find_row dt_tournament_id tournaments (tournament_id f)).

(** The entry the loop writes for a surface that has matches. *)
Definition surface_entry (all_matches : list (Enriched * bool))
    (surface : string) : SurfaceStats :=
  let s_matches :=
    filter (λ r, col_eq (Surface r.1) (Some surface)) all_matches in
  mkSurfaceStats (Z.of_nat (length s_matches)) (sum_is_win s_matches)
    (Z.of_nat (length s_matches) - sum_is_win s_matches)
    (win_rate_of (sum_is_win s_matches) (Z.of_nat (length s_matches))).

(** A collected match has the surface [surface]. *)
Definition on_surface (all_matches : list (Enriched * bool))
    (surface : string) : Prop :=
  Exists (λ r, Surface r.1 = Some surface) all_matches.

#[global] Instance on_surface_dec all surface : Decision (on_surface all surface).
Proof. unfold on_surface. apply _. Defined.

(** An answer with its body rewritten by [f]. *)
Definition map_body {A B} (f : A → B) (r : result (response A))
  : result (response B) :=
  match r with
  | Return (OK body) => Return (OK (f body))
  | Return (NotFound error) => Return (NotFound error)
  | Raise e => Raise e
  end.

Definition ps_without_clock (b : PlayerStats) : PlayerStats :=
  mkPlayerStats (ps_player b) (ps_career b) (ps_by_surface b) "".

Definition h_without_clock (b : HeadToHead) : HeadToHead :=
  mkHeadToHead (h_player_1 b) (h_player_2 b) (h_head_to_head b)
    (h_recent_matches b) "".

Definition td_without_clock (b : TournamentDetails) : TournamentDetails :=
  mkTournamentDetails (td_tournament b) (td_surface b) (td_series b)
    (td_total_matches b) (td_recent_champions b) "".

(** ** Notions used in the further properties *)

(** [sub] occurs in [s]. *)
Definition occurs_in (sub s : string) : Prop :=
  ∃ before after, s = before +:+ sub +:+ after.

(** The length of [l[:limit]] for a list of [n] elements. *)
Definition sliced_length (limit n : Z) : Z :=
  if 0 <=? limit then Z.min limit n else Z.max 0 (n + limit).

(** Running [f] over a list, stopping at the first exception. *)
Fixpoint mapM {A B} (f : A → result B) (l : list A) : result (list B) :=
  match l with
  | [] => Return []
  | a :: l' =>
      match f a with
      | Return b =>
          match mapM f l' with
          | Return bs => Return (b :: bs)
          | Raise e => Raise e
          end
      | Raise e => Raise e
      end
  end.

(** The data files [load_data] reads, in the order it meets them: the name
    of the year directory, the name of the month directory, the rows. *)
Definition month_partitions (year_dir : YearDir)
  : list (string * string * list Match) :=
  month_dir ← year_iterdir year_dir;
  if month_is_dir month_dir then
    match data_parquet month_dir with
    | Some ms => [(year_dir_name year_dir, month_dir_name month_dir, ms)]
    | None => []
    end
  else [].

Definition found_partitions (st : Storage)
  : list (string * string * list Match) :=
  year_dir ← default [] (fact_dir st);
  if year_is_dir year_dir then month_partitions year_dir else [].

Definition fact_columns : list string :=
  ["p1_id"; "p2_id"; "winner_id"; "tournament_id"; "Date"; "Round"; "Score";
   "year"; "month"].

Section RuntimeNotions.
Context `{Runtime}.

(** [search in p.lower()] for a name that is not null. *)
Definition name_contains (search : string) (p : option string) : bool :=
  match p with
  | Some name => str_in search (str_lower name)
  | None => false
  end.

(** [int(v)] as a result. *)
Definition int_of (v : string) : result Z :=
  match py_int v with
  | Some z => Return z
  | None => Raise ValueError
  end.

(** One data file turned into a part of [fact_matches]. *)
Definition stamp_partition (p : string * string * list Match)
  : result (DataFrame FactRow) :=
  year ← partition_value p.1.1;
  month ← partition_value p.1.2;
  Return (mkDataFrame fact_columns ((λ m, mkFact m year month) <$> p.2)).

End RuntimeNotions.

(** The two players of a row are accepted by the two tests, in either
    order. *)
Definition pair_matches (c1 c2 : option string → bool) (m : Enriched) : bool :=
  (c1 (p1_name m) && c2 (p2_name m)) || (c2 (p1_name m) && c1 (p2_name m)).

(** [acc] extended by the outcome of a run. *)
Definition extend {B} (acc : list B) (r : result (list B)) : result (list B) :=
  match r with
  | Return l => Return (acc ++ l)%list
  | Raise e => Raise e
  end.

(** The number of matches [by_surface] reports under a key, zero when the
    key is absent. *)
Definition surface_matches (by_surface : gmap string SurfaceStats)
    (key : string) : Z :=
  default 0 (s_matches <$> by_surface !! key).

Definition surface_wins (by_surface : gmap string SurfaceStats)
    (key : string) : Z :=
  default 0 (s_wins <$> by_surface !! key).

(** Two rows of the player dimension with one identifier. *)
Module Dups.

Definition ann := mkPlayer 1 (Some "Ann Lee").
Definition ann_again := mkPlayer 1 (Some "Ann Li").
Definition bo := mkPlayer 2 (Some "Bo Ek").

Definition cup := mkTournament 40 (Some "Town Cup") None (Some "ATP250").

Definition only_match := mkMatch 1 2 2 40 16000 "The Final" "6-3 6-4".

Definition storage : Storage :=
  mkStorage (Some [ann; ann_again; bo]) (Some [cup])
    (Some [mkYearDir "year=2013" true
             [mkMonthDir "month=10=late" true (Some [only_match])]]).

Definition snapshot : Snapshot :=
  match load_data (H := py_runtime) storage with
  | Return snap => snap
  | Raise _ => mkSnapshot empty_frame empty_frame empty_frame empty_frame
  end.

End Dups.

(** * Properties *)

(** ** The result monad *)

Lemma bind_Return {A B} (m : result A) (f : A → result B) (b : B) :
  m ≫= f = Return b → ∃ a, m = Return a ∧ f a = Return b.
Proof. destruct m as [a|e]; [by exists a | done]. Qed.

Ltac inv_bind H :=
  let a := fresh "x" in
  let Ha := fresh "Hx" in
  apply bind_Return in H as (a & Ha & H).

(** ** Left joins *)

Lemma find_row_Some {R} (rkey : R → Z) right k r :
  find_row rkey right k = Some r → r ∈ right ∧ rkey r = k.
Proof.
  unfold find_row. intros Hh. apply head_Some_elem_of in Hh.
  apply list_elem_of_filter in Hh. tauto.
Qed.

Lemma find_row_None {R} (rkey : R → Z) right k :
  find_row rkey right k = None → ∀ r, r ∈ right → rkey r ≠ k.
Proof.
  unfold find_row. intros Hh r Hr Hk. apply head_None in Hh.
  by eapply (filter_nil_not_elem_of (λ r, rkey r = k)).
Qed.

Lemma unique_key_filter {R} (rkey : R → Z) (right : list R) k :
  NoDup (rkey <$> right) →
  filter (λ r, rkey r = k) right = option_list (find_row rkey right k).
Proof.
  unfold find_row.
  induction right as [|r right IH]; [done|].
  rewrite fmap_cons, NoDup_cons. intros [Hr Hnd].
  rewrite filter_cons. case_decide as Hk; [|by apply IH].
  simpl. f_equal.
  destruct (filter (λ r0, rkey r0 = k) right) as [|r' rs] eqn:Hf; [done|].
  exfalso. apply Hr.
  assert (r' ∈ filter (λ r0, rkey r0 = k) right) as Hin
    by (rewrite Hf; left).
  apply list_elem_of_filter in Hin as [Hk' Hin].
  apply list_elem_of_fmap. exists r'. split; [congruence | done].
Qed.

Lemma find_row_elem {R} (rkey : R → Z) (right : list R) r :
  NoDup (rkey <$> right) → r ∈ right → find_row rkey right (rkey r) = Some r.
Proof.
  intros Hnd Hr.
  assert (r ∈ filter (λ r0, rkey r0 = rkey r) right) as Hin
    by (by apply list_elem_of_filter).
  rewrite (unique_key_filter _ _ _ Hnd) in Hin.
  destruct (find_row rkey right (rkey r)) as [r'|]; simpl in Hin.
  - apply list_elem_of_singleton in Hin. by subst.
  - by apply elem_of_nil in Hin.
Qed.

(** With unique right keys a left join is a lookup per left row. *)
Lemma left_join_unique {L R LR} (lkey : L → Z) (rkey : R → Z)
    (pack : L → option R → LR) (left : list L) (right : list R) :
  NoDup (rkey <$> right) →
  left_join lkey rkey pack left right =
  (λ l, pack l (find_row rkey right (lkey l))) <$> left.
Proof.
  intros Hnd. unfold left_join.
  induction left as [|l left IH]; [done|].
  rewrite fmap_cons, bind_cons, IH. clear IH.
  rewrite (unique_key_filter _ _ _ Hnd).
  by destruct (find_row rkey right (lkey l)).
Qed.

Lemma merge_rows {L R LR} (left : DataFrame L) (right : DataFrame R)
    left_on right_on lkey rkey (pack : L → option R → LR) df :
  merge left right left_on right_on lkey rkey pack = Return df →
  rows df = left_join lkey rkey pack (rows left) (rows right).
Proof.
  unfold merge. repeat case_bool_decide; intros Hm; by simplify_eq.
Qed.

Section Loader.
Context `{Runtime}.

Lemma select_columns_rows {R} labels (df df' : DataFrame R) :
  select_columns labels df = Return df' → rows df' = rows df.
Proof.
  unfold select_columns. destruct (list_find _ _) as [[??]|]; [done|].
  intros; by simplify_eq.
Qed.

Lemma build_enriched_rows dp dt fm fp :
  NoDup (player_id <$> rows dp) →
  NoDup (dt_tournament_id <$> rows dt) →
  build_enriched dp dt fm = Return fp →
  rows fp = enrich (rows dp) (rows dt) <$> rows fm.
Proof.
  intros Hp Ht Hb. unfold build_enriched in Hb.
  inv_bind Hb. inv_bind Hb. inv_bind Hb. inv_bind Hb.
  apply merge_rows in Hb, Hx, Hx0, Hx1. apply select_columns_rows in Hx2.
  simpl in *. rewrite Hb, Hx1, Hx0, Hx, Hx2.
  rewrite !left_join_unique by done.
  rewrite <- !list_fmap_compose. done.
Qed.

Lemma load_data_build st snap :
  load_data st = Return snap →
  build_enriched (dim_players snap) (dim_tournaments snap) (fact_matches snap)
  = Return (fact_plus snap).
Proof.
  unfold load_data. intros Hl.
  inv_bind Hl. inv_bind Hl. inv_bind Hl. inv_bind Hl.
  by simplify_eq.
Qed.

(** C1.  Enrichment keeps every fact row: when [load_data] succeeds and the
    identifiers of each dimension table are unique, [fact_plus] has exactly
    the rows of [fact_matches], in the same order, each with what the four
    lookups found (or nothing where a lookup missed); in particular the two
    tables have the same number of rows. *)
Theorem load_data_keeps_every_fact_row st snap :
  load_data st = Return snap →
  NoDup (player_id <$> rows (dim_players snap)) →
  NoDup (dt_tournament_id <$> rows (dim_tournaments snap)) →
  fact <$> rows (fact_plus snap) = rows (fact_matches snap) ∧
  len (fact_plus snap) = len (fact_matches snap).
Proof.
  intros Hl Hp Ht. apply load_data_build in Hl.
  apply build_enriched_rows in Hl; [|done..].
  unfold len. rewrite Hl, length_fmap. split; [|done].
  rewrite <- list_fmap_compose. apply list_fmap_id.
Qed.

End Loader.

Section LoaderEmpty.
Context `{Runtime}.

(** C4.  When no partition is found, [fact_matches] is [pd.DataFrame()], a
    frame without columns, and the first merge raises [KeyError] on its key
    [p1_id]: [load_data] hands back no snapshot, whatever the dimension
    tables hold. *)
Theorem load_data_without_partitions_raises st players tournaments :
  dim_players_parquet st = Some players →
  dim_tournaments_parquet st = Some tournaments →
  load_fact_parts st = Return [] →
  load_data st = Raise (KeyError "p1_id").
Proof.
  intros Hp Ht Hf. unfold load_data. rewrite Hp, Ht. simpl.
  rewrite Hf. reflexivity.
Qed.

End LoaderEmpty.

(** ** [player_stats] *)

Lemma col_eq_Some x b : col_eq x (Some b) ↔ x = Some b.
Proof.
  unfold col_eq. destruct x as [a|]; [|by split].
  rewrite bool_decide_spec. naive_solver.
Qed.

Lemma col_eq_inv x v : col_eq x v → x = v ∧ is_Some v.
Proof.
  destruct v as [b|]; [|by destruct x].
  intros Hx%col_eq_Some. by subst.
Qed.

Lemma sum_is_win_bounds ms : 0 ≤ sum_is_win ms ≤ Z.of_nat (length ms).
Proof.
  unfold sum_is_win. pose proof (length_filter (λ r, r.2 = true) ms). lia.
Qed.

Lemma filter_nonempty {A} (P : A → Prop) `{!∀ x, Decision (P x)} (l : list A) :
  0 < Z.of_nat (length (filter P l)) ↔ ∃ x, x ∈ l ∧ P x.
Proof.
  split.
  - destruct (filter P l) as [|x l'] eqn:Hf; simpl; [lia|]. intros _.
    assert (x ∈ filter P l) as Hx by (rewrite Hf; left).
    apply list_elem_of_filter in Hx. exists x. tauto.
  - intros (x & Hx & HP).
    assert (x ∈ filter P l) as Hin by (by apply list_elem_of_filter).
    destruct (filter P l); [by apply elem_of_nil in Hin | simpl; lia].
Qed.

Lemma on_surface_alt all surface :
  on_surface all surface ↔ ∃ r, r ∈ all ∧ Surface r.1 = Some surface.
Proof. apply Exists_exists. Qed.

Lemma surface_step_lookup all acc surface k :
  surface_step all acc surface !! k =
  if decide (lower surface = k ∧ on_surface all surface)
  then Some (surface_entry all surface) else acc !! k.
Proof.
  unfold surface_step.
  destruct (0 <? _) eqn:Hlen.
  - apply Z.ltb_lt, filter_nonempty in Hlen as (r & Hr & Hs%col_eq_Some).
    case_decide as Hd.
    + destruct Hd as [-> _]. by rewrite lookup_insert_eq.
    + rewrite lookup_insert_ne; [done|]. intros Heq. apply Hd.
      split; [done|]. apply on_surface_alt. by exists r.
  - apply Z.ltb_ge in Hlen. case_decide as Hd; [|done].
    destruct Hd as [_ (r & Hr & Hs)%on_surface_alt]. exfalso.
    assert (0 < Z.of_nat (length
      (filter (λ r, col_eq (Surface r.1) (Some surface)) all))); [|lia].
    apply filter_nonempty. exists r. split; [done|]. by apply col_eq_Some.
Qed.

Lemma surface_breakdown_lookup all k e :
  surface_breakdown all !! k = Some e ↔
  ∃ surface, surface ∈ ["Hard"; "Clay"; "Grass"] ∧ k = lower surface ∧
             on_surface all surface ∧ e = surface_entry all surface.
Proof.
  unfold surface_breakdown. simpl. rewrite !surface_step_lookup.
  rewrite lookup_empty. split.
  - destruct (decide (lower "Grass" = k ∧ _)) as [[<- ?]|_];
      [intros [= <-]; exists "Grass"; by rewrite !elem_of_cons; auto 6|].
    destruct (decide (lower "Clay" = k ∧ _)) as [[<- ?]|_];
      [intros [= <-]; exists "Clay"; by rewrite !elem_of_cons; auto 6|].
    destruct (decide (lower "Hard" = k ∧ _)) as [[<- ?]|_];
      [intros [= <-]; exists "Hard"; by rewrite !elem_of_cons; auto 6|].
    done.
  - intros (surface & Hin & -> & Hon & ->).
    rewrite !elem_of_cons in Hin.
    destruct Hin as [-> | [-> | [-> | Hin]]]; [..|by apply elem_of_nil in Hin];
      repeat (destruct (decide _) as [[? ?]|?]; try done);
      tauto.
Qed.

Lemma surface_entry_positive all surface :
  on_surface all surface → 0 < s_matches (surface_entry all surface).
Proof.
  intros (r & Hr & Hs)%on_surface_alt. simpl. apply filter_nonempty.
  exists r. split; [done|]. by apply col_eq_Some.
Qed.

Section PlayerStats.
Context `{Runtime}.

Lemma matching_rows_Return {R} (name_of : R → option string) table query ms :
  matching_rows name_of table query = Return ms →
  ∃ contains, str_contains query = Return contains ∧
              ms = filter (λ r, contains (name_of r)) table.
Proof.
  unfold matching_rows. intros Hm. inv_bind Hm. simplify_eq. eauto.
Qed.

Lemma str_contains_None query contains :
  str_contains query = Return contains → contains None = false.
Proof.
  unfold str_contains. destruct (re_compile_ignorecase query); [|done].
  intros; by simplify_eq.
Qed.

(** What [player_stats] answers once the name is resolved. *)
Lemma player_stats_resolved snap now name first rest :
  matching_rows player_name (rows (dim_players snap)) (replace_pct20 name)
    = Return (first :: rest) →
  let all := player_matches (rows (fact_plus snap)) (player_name first) in
  player_stats snap now name =
  Return (if bool_decide (length all = 0%nat)
          then NotFound "No matches found for player"
          else OK (mkPlayerStats (player_name first)
                     (mkCareer (Z.of_nat (length all)) (sum_is_win all)
                        (Z.of_nat (length all) - sum_is_win all)
                        (win_rate_of (sum_is_win all) (Z.of_nat (length all))))
                     (surface_breakdown all) now)).
Proof.
  intros Hm all. unfold player_stats. rewrite Hm. simpl.
  fold all. by case_bool_decide.
Qed.

Lemma player_stats_OK snap now name body :
  player_stats snap now name = Return (OK body) →
  ∃ first rest,
    matching_rows player_name (rows (dim_players snap)) (replace_pct20 name)
      = Return (first :: rest) ∧
    let all := player_matches (rows (fact_plus snap)) (player_name first) in
    all ≠ [] ∧
    body = mkPlayerStats (player_name first)
             (mkCareer (Z.of_nat (length all)) (sum_is_win all)
                (Z.of_nat (length all) - sum_is_win all)
                (win_rate_of (sum_is_win all) (Z.of_nat (length all))))
             (surface_breakdown all) now.
Proof.
  intros Hp.
  destruct (matching_rows player_name (rows (dim_players snap))
              (replace_pct20 name)) as [[|first rest]|e] eqn:Hm.
  - unfold player_stats in Hp. rewrite Hm in Hp. done.
  - rewrite (player_stats_resolved _ _ _ _ _ Hm) in Hp.
    exists first, rest. split; [done|]. simpl.
    case_bool_decide as Hlen; simplify_eq. split; [|done].
    intros Hnil. by rewrite Hnil in Hlen.
  - unfold player_stats in Hp. rewrite Hm in Hp. done.
Qed.

(** C3.  A resolved player with at least one collected match gets a career
    record, in which [total_matches] is the number of collected matches,
    [wins] the number of those flagged as won, [wins + losses =
    total_matches], and [win_rate] is [round(wins / total_matches * 100, 1)]
    in binary64 arithmetic. *)
Theorem player_stats_career_arithmetic snap now name first rest :
  matching_rows player_name (rows (dim_players snap)) (replace_pct20 name)
    = Return (first :: rest) →
  player_matches (rows (fact_plus snap)) (player_name first) ≠ [] →
  ∃ body,
    player_stats snap now name = Return (OK body) ∧
    let c := ps_career body in
    total_matches c =
      Z.of_nat (length
        (player_matches (rows (fact_plus snap)) (player_name first))) ∧
    wins c =
      sum_is_win (player_matches (rows (fact_plus snap)) (player_name first)) ∧
    1 ≤ total_matches c ∧
    0 ≤ wins c ≤ total_matches c ∧
    wins c + losses c = total_matches c ∧
    win_rate c =
      py_round1 (Z2float (wins c) / Z2float (total_matches c) * 100)%float.
Proof.
  intros Hm Hne. rewrite (player_stats_resolved _ _ _ _ _ Hm).
  set (all := player_matches _ _) in *.
  case_bool_decide as Hlen; [by destruct all|].
  eexists. split; [done|]. simpl.
  pose proof (sum_is_win_bounds all).
  repeat split; try done; lia.
Qed.

(** C6.  In a successful answer the keys of [by_surface] are among [hard],
    [clay] and [grass]; the key of Hard, Clay or Grass is present exactly
    when a collected match has that surface; and an entry counts the
    collected matches of its surface, so it never reports zero matches. *)
Theorem player_stats_by_surface snap now name body :
  player_stats snap now name = Return (OK body) →
  let all := player_matches (rows (fact_plus snap)) (ps_player body) in
  (∀ k e, ps_by_surface body !! k = Some e →
     k ∈ ["hard"; "clay"; "grass"] ∧ 0 < s_matches e) ∧
  (∀ surface, surface ∈ ["Hard"; "Clay"; "Grass"] →
     (is_Some (ps_by_surface body !! lower surface) ↔
      ∃ r, r ∈ all ∧ Surface r.1 = Some surface) ∧
     (∀ e, ps_by_surface body !! lower surface = Some e →
        s_matches e =
          Z.of_nat (length
            (filter (λ r, Surface r.1 = Some surface) all)) ∧
        s_wins e + s_losses e = s_matches e)).
Proof.
  intros Hp. apply player_stats_OK in Hp as (first & rest & _ & _ & ->).
  simpl. set (all := player_matches _ _). split.
  - intros k e (surface & Hin & -> & Hon & ->)%surface_breakdown_lookup.
    split; [|by apply surface_entry_positive].
    rewrite !elem_of_cons in Hin.
    destruct Hin as [-> | [-> | [-> | Hin]]]; [..|by apply elem_of_nil in Hin];
      set_solver.
  - intros surface Hin. split.
    + split.
      * intros [e (s' & Hin' & Heq & Hon & _)%surface_breakdown_lookup].
        apply on_surface_alt in Hon.
        rewrite !elem_of_cons in Hin, Hin'.
        destruct Hin as [-> | [-> | [-> | Hin]]];
          [..|by apply elem_of_nil in Hin];
          destruct Hin' as [-> | [-> | [-> | Hin']]];
          try (by apply elem_of_nil in Hin'); try done.
      * intros Hon%on_surface_alt. exists (surface_entry all surface).
        apply surface_breakdown_lookup. by exists surface.
    + intros e (s' & Hin' & Heq & Hon & ->)%surface_breakdown_lookup.
      assert (s' = surface) as ->.
      { rewrite !elem_of_cons in Hin, Hin'.
        destruct Hin as [-> | [-> | [-> | Hin]]];
          [..|by apply elem_of_nil in Hin];
          destruct Hin' as [-> | [-> | [-> | Hin']]];
          try (by apply elem_of_nil in Hin'); try done. }
      simpl. split; [|lia]. do 2 f_equal.
      apply list_filter_iff. intros r. apply col_eq_Some.
Qed.

(** C10.  [player_stats] answers with the NotFound failure (status 404) when
    no row of the player dimension matches the name, and also when the
    resolved player has no collected match.  The status is the same, the
    body is not: the first answer names the player asked for, the second
    says that no matches were found, and the two texts are never equal, so
    the message tells an absent player from a matchless one. *)
Theorem player_stats_not_found snap now name ms :
  matching_rows player_name (rows (dim_players snap)) (replace_pct20 name)
    = Return ms →
  ms = [] ∨
  (∃ first rest, ms = first :: rest ∧
     player_matches (rows (fact_plus snap)) (player_name first) = []) →
  ∃ msg, player_stats snap now name = Return (NotFound msg) ∧
         status_code (NotFound (A := PlayerStats) msg) = 404 ∧
         (ms = [] ↔
          msg = "Player '" +:+ replace_pct20 name +:+ "' not found") ∧
         (ms ≠ [] ↔ msg = "No matches found for player").
Proof.
  assert ("Player '" +:+ replace_pct20 name +:+ "' not found"
          ≠ "No matches found for player") as Hdiff.
  { unfold String.append. discriminate. }
  intros Hm [-> | (first & rest & -> & Hnil)].
  - unfold player_stats. rewrite Hm. simpl. eexists.
    split; [done|]. split; [done|]. split; [done|]. by split.
  - rewrite (player_stats_resolved _ _ _ _ _ Hm). simpl. rewrite Hnil.
    simpl. eexists. split; [done|]. split; [done|].
    split; [|done]. split; [done|]. intros Heq. by destruct Hdiff.
Qed.

End PlayerStats.

(** ** [head_to_head] *)




Section HeadToHead.
Context `{Runtime}.

Lemma head_to_head_OK snap now player1 player2 body :
  head_to_head snap now player1 player2 = Return (OK body) →
  ∃ first rest,
    h2h_rows (rows (fact_plus snap)) (replace_pct20 player1)
      (replace_pct20 player2) = Return (first :: rest) ∧
    body = mkHeadToHead (p1_name first) (p2_name first)
             (mkH2HCounts (count_wins (first :: rest) (p1_name first))
                (count_wins (first :: rest) (p2_name first))
                (Z.of_nat (length (first :: rest))))
             (recent_match <$> take 10 (first :: rest)) now.
Proof.
  unfold head_to_head. intros Hh. inv_bind Hh.
  destruct x as [|first rest]; simplify_eq. eauto.
Qed.


End HeadToHead.

(** ** [tournament_details] *)

Section TournamentDetails.
Context `{Runtime}.

Lemma sort_values_Date_desc_strongly l :
  StronglySorted (λ a b : Enriched, Date b ≤ Date a)
    (sort_values_Date_desc l).
Proof.
  apply Sorted_StronglySorted; [|apply sort_values_Date_desc_sorted].
  intros a b c Hab Hbc. lia.
Qed.

Lemma tournament_details_OK snap now name body :
  tournament_details snap now name = Return (OK body) →
  ∃ first rest,
    matching_rows Tournament (rows (fact_plus snap)) (replace_pct20 name)
      = Return (first :: rest) ∧
    body = mkTournamentDetails (Tournament first) (Surface first)
             (Series first) (Z.of_nat (length (first :: rest)))
             (champion <$> recent_finals (first :: rest)) now.
Proof.
  unfold tournament_details. intros Ht. inv_bind Ht.
  destruct x as [|first rest]; simplify_eq. eauto.
Qed.

(** C7.  The champions of a successful answer are read off a list [finals]
    of rows of the matched tournament rows: every row of it has the round
    [The Final]; it has at most ten rows; its dates never increase (equal
    dates may follow each other); and a final that is left out is no more
    recent than any row that is kept. *)
Theorem tournament_details_recent_champions snap now name body :
  tournament_details snap now name = Return (OK body) →
  ∃ matches finals,
    matching_rows Tournament (rows (fact_plus snap)) (replace_pct20 name)
      = Return matches ∧
    td_recent_champions body = champion <$> finals ∧
    Forall (λ m : Enriched, m ∈ matches ∧ Round m = "The Final") finals ∧
    (length finals ≤ 10)%nat ∧
    StronglySorted (λ a b : Enriched, Date b ≤ Date a) finals ∧
    (∀ m kept : Enriched,
       m ∈ matches → Round m = "The Final" → m ∉ finals → kept ∈ finals →
       Date m ≤ Date kept).
Proof.
  intros (first & rest & Hm & ->)%tournament_details_OK.
  exists (first :: rest), (recent_finals (first :: rest)).
  set (matches := first :: rest).
  set (sorted := sort_values_Date_desc
                   (filter (λ m : Enriched, Round m = "The Final") matches)).
  assert (∀ m : Enriched,
            m ∈ sorted ↔ Round m = "The Final" ∧ m ∈ matches) as Hin.
  { intros m. unfold sorted.
    by rewrite sort_values_Date_desc_perm, list_elem_of_filter. }
  pose proof (sort_values_Date_desc_strongly
    (filter (λ m : Enriched, Round m = "The Final") matches)) as Hs.
  fold sorted in Hs. rewrite <- (take_drop 10 sorted) in Hs.
  assert (recent_finals matches = take 10 sorted) as -> by done.
  split; [done|]. split; [done|]. split.
  { apply Forall_forall. intros m Hm'.
    assert (m ∈ sorted) as Hms.
    { rewrite <- (take_drop 10 sorted). apply elem_of_app. by left. }
    apply Hin in Hms. tauto. }
  split. { rewrite length_take. lia. }
  split. { by apply StronglySorted_app_1_l in Hs. }
  intros m kept Hmm Hr Hnot Hk.
  assert (m ∈ sorted) as Hms by (by apply Hin).
  rewrite <- (take_drop 10 sorted) in Hms.
  apply elem_of_app in Hms as [?|Hd]; [done|].
  apply (StronglySorted_app_1_elem_of _ _ _ _ _ Hs Hk Hd).
Qed.

End TournamentDetails.

(** ** Name resolution *)

Lemma filter_first_split {A} (P : A → Prop) `{!∀ x, Decision (P x)}
    (l : list A) x xs :
  filter P l = x :: xs →
  ∃ before after : list A,
    l = (before ++ x :: after)%list ∧ P x ∧ Forall (λ y, ¬ P y) before ∧
    xs = filter P after.
Proof.
  induction l as [|y l IH]; [done|].
  rewrite filter_cons. destruct (decide (P y)) as [Hy|Hy].
  - intros [= -> <-]. by exists [], l.
  - intros (before & after & -> & Hx & Hb & Hxs)%IH.
    exists (y :: before), after. split; [done|]. split; [done|].
    split; [by constructor | done].
Qed.

Section Resolver.
Context `{Runtime}.

(** X1.  First match wins.  Whatever the library's matcher accepts, when
    the query compiles the rows kept are the rows of the table whose name
    the matcher accepts, each as often as the table holds it and in table
    order; the row the routes go on with is the first such row of the
    table, the rows kept after it being the accepted rows that follow it,
    and there is none exactly when no row is accepted. *)
Theorem matching_rows_first_match {R} (name_of : R → option string)
    (table : list R) (query : string) (ms : list R) :
  matching_rows name_of table query = Return ms →
  ∃ contains,
    str_contains query = Return contains ∧
    ms = filter (λ r, contains (name_of r)) table ∧
    match ms with
    | [] => ∀ r, r ∈ table → ¬ contains (name_of r)
    | first :: rest =>
        ∃ before after : list R,
          table = (before ++ first :: after)%list ∧
          contains (name_of first) ∧
          Forall (λ r, ¬ contains (name_of r)) before ∧
          rest = filter (λ r, contains (name_of r)) after
    end.
Proof.
  intros (contains & Hc & ->)%matching_rows_Return.
  exists contains. split; [done|]. split; [done|].
  destruct (filter _ table) as [|first rest] eqn:Hf.
  - intros r Hr Hcr.
    by eapply (filter_nil_not_elem_of (λ r, contains (name_of r))).
  - by apply filter_first_split in Hf.
Qed.

End Resolver.

(** ** The clock *)

Section Clock.
Context `{Runtime}.

(** C9.  On a fixed snapshot and fixed arguments the answers of
    [player_stats], [head_to_head] and [tournament_details] at two clock
    readings agree on everything but [generated_at], which is the clock
    reading itself.  ([list_players] and [list_tournaments] never read the
    clock.) *)
Theorem answers_differ_only_in_generated_at
    snap name player1 player2 tournament now1 now2 :
  (map_body ps_without_clock (player_stats snap now1 name) =
   map_body ps_without_clock (player_stats snap now2 name) ∧
   ∀ body, player_stats snap now1 name = Return (OK body) →
           ps_generated_at body = now1) ∧
  (map_body h_without_clock (head_to_head snap now1 player1 player2) =
   map_body h_without_clock (head_to_head snap now2 player1 player2) ∧
   ∀ body, head_to_head snap now1 player1 player2 = Return (OK body) →
           h_generated_at body = now1) ∧
  (map_body td_without_clock (tournament_details snap now1 tournament) =
   map_body td_without_clock (tournament_details snap now2 tournament) ∧
   ∀ body, tournament_details snap now1 tournament = Return (OK body) →
           td_generated_at body = now1).
Proof.
  split; [|split].
  - split.
    + unfold player_stats. destruct (matching_rows _ _ _) as [[|first rest]|e];
        simpl; [done| |done].
      by case_bool_decide.
    + by intros body (first & rest & _ & _ & ->)%player_stats_OK.
  - split.
    + unfold head_to_head.
      by destruct (h2h_rows _ _ _) as [[|first rest]|e].
    + by intros body (first & rest & _ & ->)%head_to_head_OK.
  - split.
    + unfold tournament_details.
      by destruct (matching_rows _ _ _) as [[|first rest]|e].
    + by intros body (first & rest & _ & ->)%tournament_details_OK.
Qed.

End Clock.

(** ** Which matches [player_stats] collects *)

Lemma elem_of_left_join {L R LR} (lkey : L → Z) (rkey : R → Z)
    (pack : L → option R → LR) (left : list L) (right : list R) x :
  x ∈ left_join lkey rkey pack left right →
  ∃ l o, l ∈ left ∧ x = pack l o ∧ join_hit rkey right (lkey l) o.
Proof.
  unfold left_join. intros (l & Hx & Hl)%list_elem_of_bind.
  exists l. destruct (filter _ right) as [|r rs] eqn:Hf.
  - apply list_elem_of_singleton in Hx. exists None. repeat split; [done..|].
    intros r Hr Hk.
    by eapply (filter_nil_not_elem_of (λ r, rkey r = lkey l)).
  - apply list_elem_of_fmap in Hx as (r' & -> & Hr').
    exists (Some r'). repeat split; [done|..];
      rewrite <- Hf in Hr'; apply list_elem_of_filter in Hr'; tauto.
Qed.

Lemma unique_key_inj {R} (rkey : R → Z) (right : list R) r1 r2 :
  NoDup (rkey <$> right) → r1 ∈ right → r2 ∈ right → rkey r1 = rkey r2 →
  r1 = r2.
Proof.
  intros Hnd H1 H2 Hk.
  pose proof (find_row_elem rkey right r1 Hnd H1) as E1.
  pose proof (find_row_elem rkey right r2 Hnd H2) as E2.
  rewrite Hk in E1. congruence.
Qed.

Lemma name_identifies players first k o :
  NoDup (player_id <$> players) →
  first ∈ players →
  is_Some (player_name first) →
  (∀ r, r ∈ players → player_name r = player_name first →
        player_id r = player_id first) →
  join_hit player_id players k o →
  col_eq (o ≫= player_name) (player_name first) ↔ k = player_id first.
Proof.
  intros Hnd Hf [n Hn] Huniq Hhit. split.
  - intros [Heq _]%col_eq_inv. destruct o as [r|]; simpl in *.
    + destruct Hhit as [Hr <-]. by apply Huniq.
    + congruence.
  - intros ->. destruct o as [r|]; simpl in *.
    + destruct Hhit as [Hr Hk].
      rewrite (unique_key_inj player_id players r first) by done.
      rewrite Hn. by apply col_eq_Some.
    + by destruct (Hhit first Hf).
Qed.

Section Collection.
Context `{Runtime}.

Lemma fact_plus_player_rows dp dt fm fp (m : Enriched) :
  build_enriched dp dt fm = Return fp →
  m ∈ rows fp →
  join_hit player_id (rows dp) (p1_id m) (p1_row m) ∧
  join_hit player_id (rows dp) (p2_id m) (p2_row m) ∧
  join_hit player_id (rows dp) (winner_id m) (w_row m) ∧
  join_hit dt_tournament_id (rows dt) (tournament_id m) (t_row m) ∧
  fact m ∈ rows fm.
Proof.
  intros Hb Hm. unfold build_enriched in Hb.
  inv_bind Hb. inv_bind Hb. inv_bind Hb. inv_bind Hb.
  apply merge_rows in Hb, Hx, Hx0, Hx1. apply select_columns_rows in Hx2.
  simpl in *. rewrite Hb, Hx2 in Hm.
  apply elem_of_left_join in Hm as ([[[f a] b] w] & t & Hm & -> & Ht).
  rewrite Hx1 in Hm.
  apply elem_of_left_join in Hm as ([[f' a'] b'] & w' & Hm & Heq & Hw).
  rewrite Hx0 in Hm.
  apply elem_of_left_join in Hm as ([f'' a''] & b'' & Hm & Heq' & Hb').
  rewrite Hx in Hm.
  apply elem_of_left_join in Hm as (f3 & a3 & Hm & Heq'' & Ha).
  by simplify_eq/=.
Qed.

(** C2.  When identifiers are unique and no other row of the player
    dimension bears the name of the resolved player, the matches
    [player_stats] aggregates are exactly the rows of [fact_plus] in which
    the resolved player is p1 or p2, and each is flagged as a win exactly
    when [winner_id] is the resolved player's identifier. *)
Theorem player_stats_collects_resolved_player st snap name first rest :
  load_data st = Return snap →
  NoDup (player_id <$> rows (dim_players snap)) →
  matching_rows player_name (rows (dim_players snap)) (replace_pct20 name)
    = Return (first :: rest) →
  (∀ r, r ∈ rows (dim_players snap) →
        player_name r = player_name first →
        player_id r = player_id first) →
  collects_matches_of (rows (fact_plus snap)) (player_id first)
    (player_matches (rows (fact_plus snap)) (player_name first)).
Proof.
  intros Hl%load_data_build Hnd Hm Huniq.
  apply matching_rows_Return in Hm as (contains & Hc & Hm).
  assert (first ∈ filter (λ r, contains (player_name r))
                     (rows (dim_players snap))) as Hfirst
    by (rewrite <- Hm; left).
  apply list_elem_of_filter in Hfirst as [Hcf Hfirst].
  assert (is_Some (player_name first)) as Hsome.
  { destruct (player_name first); [done|].
    by rewrite (str_contains_None _ _ Hc) in Hcf. }
  assert (∀ m : Enriched, m ∈ rows (fact_plus snap) →
            (col_eq (p1_name m) (player_name first)
               ↔ p1_id m = player_id first) ∧
            (col_eq (p2_name m) (player_name first)
               ↔ p2_id m = player_id first)) as Hside.
  { intros m Hin.
    destruct (fact_plus_player_rows _ _ _ _ m Hl Hin) as (H1 & H2 & _).
    unfold p1_name, p2_name.
    split; by apply (name_identifies (rows (dim_players snap))). }
  unfold collects_matches_of, player_matches. split.
  - intros m. rewrite fmap_app, elem_of_app, <- !list_fmap_compose.
    rewrite !list_elem_of_fmap. split.
    + intros [(m' & -> & Hin) | (m' & -> & Hin)];
        apply list_elem_of_filter in Hin as [Hn Hin];
        (split; [done|]); apply Hside in Hn; auto.
    + intros [Hin [Hid | Hid]]; [left | right]; exists m;
        (split; [done|]); apply list_elem_of_filter;
        (split; [|done]); by apply Hside.
  - intros m is_win. rewrite elem_of_app, !list_elem_of_fmap.
    intros [(m' & [= -> ->] & Hin) | (m' & [= -> ->] & Hin)];
      apply list_elem_of_filter in Hin as [Hn Hin];
      apply Hside in Hn; [|done|..|done];
      rewrite bool_decide_eq_true; by rewrite Hn.
Qed.

End Collection.

(** * The properties on the two datasets *)

Lemma atp_loaded : load_data (H := py_runtime) Atp.storage = Return Atp.snapshot.
Proof. vm_compute. reflexivity. Qed.

Lemma atp_player_ids : NoDup (player_id <$> rows (dim_players Atp.snapshot)).
Proof. apply (bool_decide_unpack _). vm_compute. exact I. Qed.

Lemma atp_tournament_ids :
  NoDup (dt_tournament_id <$> rows (dim_tournaments Atp.snapshot)).
Proof. apply (bool_decide_unpack _). vm_compute. exact I. Qed.

Lemma atp_nadal_resolved :
  matching_rows (H := py_runtime) player_name
    (rows (dim_players Atp.snapshot)) (replace_pct20 "nadal")
  = Return [Atp.nadal].
Proof. vm_compute. reflexivity. Qed.

(** The example of the specification: the answer for [nadal]. *)
Example atp_player_stats_nadal :
  ∃ body,
    player_stats (H := py_runtime) Atp.snapshot "2024-06-01T12:00:00" "nadal"
      = Return (OK body) ∧
    ps_player body = Some "Rafael Nadal" ∧
    ps_career body = mkCareer 3 3 0 100%float ∧
    ps_by_surface body !! "clay" = Some (mkSurfaceStats 2 2 0 100%float) ∧
    ps_by_surface body !! "grass" = Some (mkSurfaceStats 1 1 0 100%float) ∧
    ps_by_surface body !! "hard" = None.
Proof. eexists. split; [vm_compute; reflexivity|]. by vm_compute. Qed.

(** Witness of C1: a load in which one lookup misses (player 99). *)
Lemma load_data_keeps_every_fact_row_witness :
  load_data (H := py_runtime) Atp.storage = Return Atp.snapshot ∧
  NoDup (player_id <$> rows (dim_players Atp.snapshot)) ∧
  NoDup (dt_tournament_id <$> rows (dim_tournaments Atp.snapshot)) ∧
  fact <$> rows (fact_plus Atp.snapshot) = rows (fact_matches Atp.snapshot) ∧
  len (fact_plus Atp.snapshot) = len (fact_matches Atp.snapshot).
Proof.
  split; [exact atp_loaded|].
  split; [exact atp_player_ids|].
  split; [exact atp_tournament_ids|].
  exact (load_data_keeps_every_fact_row (H := py_runtime)
           Atp.storage Atp.snapshot
           atp_loaded atp_player_ids atp_tournament_ids).
Defined.

(** Witness of C2: Nadal, whose name no other player bears. *)
Lemma player_stats_collects_resolved_player_witness :
  collects_matches_of (rows (fact_plus Atp.snapshot)) 1
    (player_matches (rows (fact_plus Atp.snapshot)) (Some "Rafael Nadal")).
Proof.
  refine (player_stats_collects_resolved_player (H := py_runtime)
            Atp.storage Atp.snapshot "nadal" Atp.nadal []
            atp_loaded atp_player_ids atp_nadal_resolved _).
  intros r Hr. vm_compute in Hr.
  repeat (apply elem_of_cons in Hr as [-> | Hr]; [by vm_compute|]).
  by apply elem_of_nil in Hr.
Defined.

(** Counterexample to C2 as stated: [John Smith] resolves to player 1, and
    the match of player 2, who has the same name, against player 3 is
    collected although player 1 is on neither side. *)
Lemma same_name_players_are_collected_together :
  matching_rows (H := py_runtime) player_name
    (rows (dim_players Smiths.snapshot)) (replace_pct20 "John%20Smith")
  = Return [Smiths.smith1; Smiths.smith2] ∧
  (∃ body,
     player_stats (H := py_runtime) Smiths.snapshot "2024-06-01T12:00:00"
       "John%20Smith" = Return (OK body) ∧
     total_matches (ps_career body) = 4) ∧
  ¬ collects_matches_of (rows (fact_plus Smiths.snapshot))
      (player_id Smiths.smith1)
      (player_matches (rows (fact_plus Smiths.snapshot))
         (player_name Smiths.smith1)).
Proof.
  split; [vm_compute; reflexivity|]. split.
  { eexists. split; [vm_compute; reflexivity|]. by vm_compute. }
  intros [Hset _].
  set (b := mkEnriched (mkFact Smiths.match_b 2011 1) (Some Smiths.smith2)
              (Some Smiths.brown) (Some Smiths.brown) (Some Smiths.open)).
  assert (b ∈ (player_matches (rows (fact_plus Smiths.snapshot))
                 (player_name Smiths.smith1)).*1) as Hb.
  { apply (bool_decide_unpack _). vm_compute. exact I. }
  apply Hset in Hb as [_ [Hid | Hid]]; vm_compute in Hid; discriminate.
Qed.

(** Witness of C3. *)
Lemma player_stats_career_arithmetic_witness :
  ∃ body,
    player_stats (H := py_runtime) Atp.snapshot "2024-06-01T12:00:00" "nadal"
      = Return (OK body) ∧
    total_matches (ps_career body) =
      Z.of_nat (length (player_matches (rows (fact_plus Atp.snapshot))
                          (player_name Atp.nadal))) ∧
    wins (ps_career body) =
      sum_is_win (player_matches (rows (fact_plus Atp.snapshot))
                    (player_name Atp.nadal)) ∧
    1 ≤ total_matches (ps_career body) ∧
    0 ≤ wins (ps_career body) ≤ total_matches (ps_career body) ∧
    wins (ps_career body) + losses (ps_career body)
      = total_matches (ps_career body) ∧
    win_rate (ps_career body) =
      py_round1 (Z2float (wins (ps_career body)) /
                 Z2float (total_matches (ps_career body)) * 100)%float.
Proof.
  refine (player_stats_career_arithmetic (H := py_runtime)
            Atp.snapshot "2024-06-01T12:00:00" "nadal" Atp.nadal []
            atp_nadal_resolved _).
  vm_compute. discriminate.
Defined.

(** Witness of C4: a tree of directories without any [data.parquet]. *)
Lemma load_data_without_partitions_raises_witness :
  load_fact_parts (H := py_runtime) Atp.storage_without_partitions
    = Return [] ∧
  load_data (H := py_runtime) Atp.storage_without_partitions
    = Raise (KeyError "p1_id").
Proof.
  split; [reflexivity|].
  exact (load_data_without_partitions_raises (H := py_runtime)
           Atp.storage_without_partitions
           [Atp.nadal; Atp.federer] [Atp.wimbledon]
           eq_refl eq_refl eq_refl).
Defined.

Lemma atp_h2h_answer :
  head_to_head (H := py_runtime) Atp.snapshot "2024-06-01T12:00:00"
    "Nadal" "Federer"
  = Return (OK (mkHeadToHead (Some "Roger Federer") (Some "Rafael Nadal")
      (mkH2HCounts 0 2 2)
      [mkRecentMatch "2008-07-06" (Some "Wimbledon") "The Final" (Some "Grass")
         (Some "Rafael Nadal") "6-4 6-4 6-7 6-7 9-7";
       mkRecentMatch "2008-06-08" (Some "Roland Garros") "The Final"
         (Some "Clay") (Some "Rafael Nadal") "6-1 6-3 6-0"]
      "2024-06-01T12:00:00")).
Proof. vm_compute. reflexivity. Qed.



(** Witness of C6: Nadal has matches on clay and grass, none on hard. *)
Lemma player_stats_by_surface_witness :
  ∃ body,
    player_stats (H := py_runtime) Atp.snapshot "2024-06-01T12:00:00" "nadal"
      = Return (OK body) ∧
    (∀ k e, ps_by_surface body !! k = Some e →
       k ∈ ["hard"; "clay"; "grass"] ∧ 0 < s_matches e) ∧
    (∀ surface, surface ∈ ["Hard"; "Clay"; "Grass"] →
       (is_Some (ps_by_surface body !! lower surface) ↔
        ∃ r, r ∈ player_matches (rows (fact_plus Atp.snapshot))
                   (ps_player body) ∧
             Surface r.1 = Some surface) ∧
       (∀ e, ps_by_surface body !! lower surface = Some e →
          s_matches e =
            Z.of_nat (length
              (filter (λ r, Surface r.1 = Some surface)
                 (player_matches (rows (fact_plus Atp.snapshot))
                    (ps_player body)))) ∧
          s_wins e + s_losses e = s_matches e)).
Proof.
  destruct atp_player_stats_nadal as (body & Hbody & _).
  exists body. split; [exact Hbody|].
  exact (player_stats_by_surface (H := py_runtime) Atp.snapshot
           "2024-06-01T12:00:00" "nadal" body Hbody).
Defined.

Lemma atp_open_answer :
  tournament_details (H := py_runtime) Atp.snapshot "2024-06-01T12:00:00"
    "Open"
  = Return (OK (mkTournamentDetails (Some "Japan Open") (Some "Hard")
      (Some "ATP500") 2
      [mkChampion "2009-10-11" (Some "Jo-Wilfried Tsonga") "6-3 6-3";
       mkChampion "2009-10-11" (Some "Novak Djokovic") "6-2 7-6"]
      "2024-06-01T12:00:00")).
Proof. vm_compute. reflexivity. Qed.

(** Witness of C7: the tournaments whose name contains [Open]. *)
Lemma tournament_details_recent_champions_witness :
  ∃ matches finals,
    matching_rows (H := py_runtime) Tournament
      (rows (fact_plus Atp.snapshot)) (replace_pct20 "Open")
      = Return matches ∧
    [mkChampion "2009-10-11" (Some "Jo-Wilfried Tsonga") "6-3 6-3";
     mkChampion "2009-10-11" (Some "Novak Djokovic") "6-2 7-6"]
      = champion (H := py_runtime) <$> finals ∧
    Forall (λ m : Enriched, m ∈ matches ∧ Round m = "The Final") finals ∧
    (length finals ≤ 10)%nat ∧
    StronglySorted (λ a b : Enriched, Date b ≤ Date a) finals ∧
    (∀ m kept : Enriched,
       m ∈ matches → Round m = "The Final" → m ∉ finals → kept ∈ finals →
       Date m ≤ Date kept).
Proof.
  exact (tournament_details_recent_champions (H := py_runtime) Atp.snapshot
           "2024-06-01T12:00:00" "Open" _ atp_open_answer).
Defined.

(** Counterexample to C7 as stated: the finals of the Japan Open and of the
    China Open of 2009 were played on the same day; both are listed, and
    the dates of the list do not strictly decrease. *)
Lemma recent_champions_not_strictly_descending :
  ∃ matches,
    matching_rows (H := py_runtime) Tournament
      (rows (fact_plus Atp.snapshot)) (replace_pct20 "Open")
      = Return matches ∧
    (λ m : Enriched, date10 (H := py_runtime) (Date m)) <$>
      recent_finals (H := py_runtime) matches
      = ["2009-10-11"; "2009-10-11"] ∧
    ¬ Sorted (λ a b : Enriched, Date b < Date a)
        (recent_finals (H := py_runtime) matches).
Proof.
  eexists. split; [vm_compute; reflexivity|].
  split; [vm_compute; reflexivity|].
  intros Hs. vm_compute in Hs.
  apply Sorted_inv in Hs as [_ Hhd]. apply HdRel_inv in Hhd.
  vm_compute in Hhd. discriminate.
Qed.

(** C8.  The resolver treats the query as a regular expression: [N.dal] is
    not contained in [Rafael Nadal], yet it resolves to that player, while
    the plain containment test of [list_players] finds nobody; and a query
    that is not a well-formed expression makes the route raise. *)
Theorem resolver_reads_query_as_regular_expression :
  str_in (lower "N.dal") (lower "Rafael Nadal") = false ∧
  matching_rows (H := py_runtime) player_name
    (rows (dim_players Atp.snapshot)) (replace_pct20 "N.dal")
    = Return [Atp.nadal] ∧
  (∃ body,
     player_stats (H := py_runtime) Atp.snapshot "2024-06-01T12:00:00" "N.dal"
       = Return (OK body) ∧
     ps_player body = Some "Rafael Nadal") ∧
  list_players (H := py_runtime) Atp.snapshot (Some "N.dal") None
    = Return (OK (mkPlayerList 0 0 [])) ∧
  player_stats (H := py_runtime) Atp.snapshot "2024-06-01T12:00:00" "("
    = Raise re_error.
Proof.
  split; [reflexivity|]. split; [vm_compute; reflexivity|]. split.
  { eexists. split; [vm_compute; reflexivity|]. reflexivity. }
  split; vm_compute; reflexivity.
Qed.

(** Counterexample to C9 as stated: the same call at two clock readings
    gives two different answers. *)
Lemma player_stats_answer_depends_on_clock :
  player_stats (H := py_runtime) Atp.snapshot "2024-06-01T12:00:00" "nadal" ≠
  player_stats (H := py_runtime) Atp.snapshot "2024-06-01T12:00:01" "nadal".
Proof.
  intros Heq.
  destruct atp_player_stats_nadal as (body & Hbody & _).
  pose proof Hbody as Hbody'. rewrite Heq in Hbody'.
  apply player_stats_OK in Hbody as (? & ? & _ & _ & E).
  apply player_stats_OK in Hbody' as (? & ? & _ & _ & E').
  apply (f_equal ps_generated_at) in E, E'. simpl in E, E'.
  rewrite E in E'. discriminate.
Qed.

Lemma atp_murray_resolved :
  matching_rows (H := py_runtime) player_name
    (rows (dim_players Atp.snapshot)) (replace_pct20 "Andy%20Murray")
  = Return [Atp.murray].
Proof. vm_compute. reflexivity. Qed.

(** Witness of C10: Andy Murray is in the player dimension and has no
    match in the snapshot. *)
Lemma player_stats_not_found_witness :
  ∃ msg,
    player_stats (H := py_runtime) Atp.snapshot "2024-06-01T12:00:00"
      "Andy%20Murray" = Return (NotFound msg) ∧
    status_code (NotFound (A := PlayerStats) msg) = 404 ∧
    ([Atp.murray] = [] ↔
     msg = "Player '" +:+ replace_pct20 "Andy%20Murray" +:+ "' not found") ∧
    ([Atp.murray] ≠ [] ↔ msg = "No matches found for player").
Proof.
  refine (player_stats_not_found (H := py_runtime) Atp.snapshot
            "2024-06-01T12:00:00" "Andy%20Murray" [Atp.murray]
            atp_murray_resolved _).
  right. exists Atp.murray, []. split; reflexivity.
Defined.

(** Counterexample to C10 as stated: nobody is called [Nobody], Andy Murray
    is in the player dimension without a match, and the two requests get
    different bodies under the same status. *)
Lemma matchless_player_is_told_apart_from_absent_one :
  matching_rows (H := py_runtime) player_name
    (rows (dim_players Atp.snapshot)) (replace_pct20 "Nobody") = Return [] ∧
  matching_rows (H := py_runtime) player_name
    (rows (dim_players Atp.snapshot)) (replace_pct20 "Andy%20Murray")
    = Return [Atp.murray] ∧
  player_matches (rows (fact_plus Atp.snapshot)) (player_name Atp.murray)
    = [] ∧
  player_stats (H := py_runtime) Atp.snapshot "2024-06-01T12:00:00" "Nobody"
    = Return (NotFound "Player 'Nobody' not found") ∧
  player_stats (H := py_runtime) Atp.snapshot "2024-06-01T12:00:00"
    "Andy%20Murray" = Return (NotFound "No matches found for player") ∧
  player_stats (H := py_runtime) Atp.snapshot "2024-06-01T12:00:00" "Nobody"
    ≠ player_stats (H := py_runtime) Atp.snapshot "2024-06-01T12:00:00"
        "Andy%20Murray".
Proof.
  assert (player_stats (H := py_runtime) Atp.snapshot "2024-06-01T12:00:00"
            "Nobody" = Return (NotFound "Player 'Nobody' not found")) as Ha.
  { vm_compute. reflexivity. }
  assert (player_stats (H := py_runtime) Atp.snapshot "2024-06-01T12:00:00"
            "Andy%20Murray" = Return (NotFound "No matches found for player"))
    as Hb.
  { vm_compute. reflexivity. }
  split; [vm_compute; reflexivity|]. split; [exact atp_murray_resolved|].
  split; [vm_compute; reflexivity|]. split; [exact Ha|]. split; [exact Hb|].
  rewrite Ha, Hb. discriminate.
Qed.

(** Witness of first-match resolution: [o] is found in Roger Federer
    before Novak Djokovic, and not in Rafael Nadal, who comes first. *)
Lemma matching_rows_first_match_witness :
  ∃ contains,
    str_contains (H := py_runtime) "o" = Return contains ∧
    [Atp.federer; Atp.djokovic] =
      filter (λ r, contains (player_name r))
        [Atp.nadal; Atp.federer; Atp.djokovic; Atp.murray] ∧
    ∃ before after : list PlayerRow,
      [Atp.nadal; Atp.federer; Atp.djokovic; Atp.murray]
        = (before ++ Atp.federer :: after)%list ∧
      contains (player_name Atp.federer) ∧
      Forall (λ r, ¬ contains (player_name r)) before ∧
      [Atp.djokovic] = filter (λ r, contains (player_name r)) after.
Proof.
  exact (matching_rows_first_match (H := py_runtime) player_name
           [Atp.nadal; Atp.federer; Atp.djokovic; Atp.murray] "o"
           [Atp.federer; Atp.djokovic] eq_refl).
Defined.

(** * Further properties *)

(** ** Partition directories *)

Lemma str_in_char_cons (c d : ascii) (s : string) :
  str_in (String c EmptyString) (String d s) =
  Ascii.eqb c d || str_in (String c EmptyString) s.
Proof.
  cbn [str_in String.prefix]. destruct (ascii_dec c d) as [->|Hne].
  - rewrite Ascii.eqb_refl. by destruct s.
  - apply Ascii.eqb_neq in Hne. by rewrite Hne.
Qed.

Lemma split_on_without_sep sep s :
  str_in (String sep EmptyString) s = false → split_on sep s = [s].
Proof.
  induction s as [|d s IH]; [done|].
  rewrite str_in_char_cons. intros [Hd Hs]%orb_false_elim.
  cbn [split_on]. rewrite Ascii.eqb_sym, Hd. by rewrite (IH Hs).
Qed.

Lemma split_on_at_sep sep k rest :
  str_in (String sep EmptyString) k = false →
  split_on sep (k +:+ String sep rest) = k :: split_on sep rest.
Proof.
  induction k as [|d k IH].
  - intros _. change (EmptyString +:+ String sep rest) with (String sep rest).
    cbn [split_on]. by rewrite Ascii.eqb_refl.
  - rewrite str_in_char_cons. intros [Hd Hs]%orb_false_elim.
    change (String d k +:+ String sep rest)
      with (String d (k +:+ String sep rest)).
    cbn [split_on]. rewrite Ascii.eqb_sym, Hd. by rewrite (IH Hs).
Qed.

Section Partitions.
Context `{Runtime}.

(** X2.  [int(name.split("=")[1])] reads the text between the first and the
    second [=] of a directory name: a name without [=] raises [IndexError];
    the text before the first [=] and whatever follows a second [=] are
    ignored; a value [int] rejects raises [ValueError]. *)
Theorem partition_value_reads_second_field :
  (∀ name, str_in "=" name = false → partition_value name = Raise IndexError) ∧
  (∀ key v, str_in "=" key = false → str_in "=" v = false →
     partition_value (key +:+ "=" +:+ v) = int_of v ∧
     ∀ rest, partition_value (key +:+ "=" +:+ v +:+ "=" +:+ rest) = int_of v).
Proof.
  split.
  - intros name Hn. unfold partition_value.
    by rewrite (split_on_without_sep "=" name Hn).
  - intros key v Hk Hv. unfold partition_value, int_of. split.
    + change (key +:+ "=" +:+ v) with (key +:+ String "=" v).
      rewrite (split_on_at_sep "=" key v Hk).
      by rewrite (split_on_without_sep "=" v Hv).
    + intros rest.
      change (key +:+ "=" +:+ v +:+ "=" +:+ rest)
        with (key +:+ String "=" (v +:+ String "=" rest)).
      rewrite (split_on_at_sep "=" key _ Hk).
      by rewrite (split_on_at_sep "=" v rest Hv).
Qed.

End Partitions.

(** ** The loader as a map over the data files *)

Lemma mapM_app {A B} (f : A → result B) (l1 l2 : list A) :
  mapM f (l1 ++ l2) =
  match mapM f l1 with
  | Return b1 => extend b1 (mapM f l2)
  | Raise e => Raise e
  end.
Proof.
  induction l1 as [|a l1 IH]; simpl.
  - by destruct (mapM f l2).
  - destruct (f a); [|done]. rewrite IH.
    destruct (mapM f l1); [|done]. simpl. by destruct (mapM f l2).
Qed.

Lemma mapM_Return {A B} (f : A → result B) (l : list A) (bs : list B) :
  mapM f l = Return bs ↔ Forall2 (λ a b, f a = Return b) l bs.
Proof.
  revert bs. induction l as [|a l IH]; intros bs; simpl.
  - split; [intros [= <-]; constructor | by inv 1].
  - split.
    + destruct (f a) as [b|] eqn:Hfa; [|done].
      destruct (mapM f l) as [bs'|] eqn:Hm; [|done].
      intros [= <-]. constructor; [done|]. by apply IH.
    + inv 1 as [|? b ? bs' Hfa Hrest]. rewrite Hfa.
      apply IH in Hrest. by rewrite Hrest.
Qed.

Lemma foldM_mapM {A B C} (step : list B → A → result (list B))
    (g : A → list C) (f : C → result B) :
  (∀ acc a, step acc a = extend acc (mapM f (g a))) →
  ∀ l acc, foldM step l acc = extend acc (mapM f (l ≫= g)).
Proof.
  intros Hstep. induction l as [|a l IH]; intros acc.
  - simpl. by rewrite app_nil_r.
  - cbn [foldM]. rewrite Hstep, bind_cons, mapM_app.
    destruct (mapM f (g a)) as [b1|]; simpl; [|done].
    rewrite IH. destruct (mapM f (l ≫= g)); simpl; [|done].
    by rewrite app_assoc.
Qed.

Section LoaderAsMap.
Context `{Runtime}.

Lemma load_month_step year_dir acc month_dir :
  load_month year_dir acc month_dir =
  extend acc (mapM stamp_partition
    (if month_is_dir month_dir then
       match data_parquet month_dir with
       | Some ms => [(year_dir_name year_dir, month_dir_name month_dir, ms)]
       | None => []
       end
     else [])).
Proof.
  unfold load_month.
  destruct (month_is_dir month_dir); simpl; [|by rewrite app_nil_r].
  destruct (data_parquet month_dir) as [ms|]; simpl; [|by rewrite app_nil_r].
  unfold stamp_partition. simpl.
  destruct (partition_value (year_dir_name year_dir)); simpl; [|done].
  destruct (partition_value (month_dir_name month_dir)); simpl; [|done].
  unfold set_column. simpl. by rewrite <- list_fmap_compose.
Qed.

Lemma load_year_step acc year_dir :
  load_year acc year_dir =
  extend acc (mapM stamp_partition
    (if year_is_dir year_dir then month_partitions year_dir else [])).
Proof.
  unfold load_year. destruct (year_is_dir year_dir); simpl.
  - unfold month_partitions.
    apply (foldM_mapM (load_month year_dir)
             (λ month_dir,
                if month_is_dir month_dir then
                  match data_parquet month_dir with
                  | Some ms =>
                      [(year_dir_name year_dir, month_dir_name month_dir, ms)]
                  | None => []
                  end
                else [])).
    intros. apply load_month_step.
  - by rewrite app_nil_r.
Qed.

Lemma load_fact_parts_mapM st :
  load_fact_parts st = mapM stamp_partition (found_partitions st).
Proof.
  unfold load_fact_parts, found_partitions.
  destruct (fact_dir st) as [year_dirs|]; simpl; [|done].
  rewrite (foldM_mapM load_year
             (λ year_dir,
                if year_is_dir year_dir then month_partitions year_dir
                else []) stamp_partition load_year_step).
  simpl. by destruct (mapM _ _).
Qed.

(** X3.  The two nested loops of [load_data] read exactly the data files
    that sit in a directory of a directory of [fact_matches], in iteration
    order, skipping plain files and month directories without
    [data.parquet]; each file becomes one part stamped with the year and
    month read from the two directory names, and the first name that cannot
    be read aborts the whole loop with its exception. *)
Theorem load_fact_parts_maps_data_files st :
  load_fact_parts st = mapM stamp_partition (found_partitions st).
Proof. apply load_fact_parts_mapM. Qed.

End LoaderAsMap.

(** ** When [load_data] succeeds, and what the snapshot then holds *)

Lemma mjoin_cons {A} (x : list A) (ls : list (list A)) :
  mjoin (x :: ls) = (x ++ mjoin ls)%list.
Proof. done. Qed.

Lemma merge_ok {L R LR} (left : DataFrame L) (right : DataFrame R)
    left_on right_on lkey rkey (pack : L → option R → LR) :
  right_on ∈ columns right → left_on ∈ columns left →
  merge left right left_on right_on lkey rkey pack =
  Return (mkDataFrame
    (columns left ++
     filter (λ c, ¬ (left_on = right_on ∧ c = right_on)) (columns right))
    (left_join lkey rkey pack (rows left) (rows right))).
Proof.
  intros Hr Hl. unfold merge. by rewrite !bool_decide_eq_true_2.
Qed.

Section LoaderOutcome.
Context `{Runtime}.

Lemma build_enriched_ok players tournaments fm :
  "p1_id" ∈ columns fm → "p2_id" ∈ columns fm →
  "winner_id" ∈ columns fm → "tournament_id" ∈ columns fm →
  ∃ fp, build_enriched (mkDataFrame player_columns players)
          (mkDataFrame tournament_columns tournaments) fm = Return fp.
Proof.
  intros H1 H2 H3 H4. unfold build_enriched.
  rewrite merge_ok; [|by apply (bool_decide_unpack _)|done]. simpl.
  rewrite merge_ok;
    [|by apply (bool_decide_unpack _)|apply elem_of_app; by left]. simpl.
  rewrite merge_ok;
    [|by apply (bool_decide_unpack _)
     |apply elem_of_app; left; apply elem_of_app; by left]. simpl.
  rewrite merge_ok; [by eexists|by apply (bool_decide_unpack _)|].
  simpl. apply elem_of_app; left; apply elem_of_app; left.
  apply elem_of_app; by left.
Qed.

Lemma stamp_partition_Return p df :
  stamp_partition p = Return df ↔
  ∃ y m, partition_value p.1.1 = Return y ∧
         partition_value p.1.2 = Return m ∧
         df = mkDataFrame fact_columns ((λ r, mkFact r y m) <$> p.2).
Proof.
  unfold stamp_partition. split.
  - intros Hs. inv_bind Hs. inv_bind Hs. simplify_eq. eauto.
  - intros (y & m & -> & -> & ->). done.
Qed.

Lemma load_data_inv st snap :
  load_data st = Return snap →
  ∃ players tournaments parts,
    dim_players_parquet st = Some players ∧
    dim_tournaments_parquet st = Some tournaments ∧
    mapM stamp_partition (found_partitions st) = Return parts ∧
    parts ≠ [] ∧
    dim_players snap = mkDataFrame player_columns players ∧
    dim_tournaments snap = mkDataFrame tournament_columns tournaments ∧
    fact_matches snap = concat_frames parts.
Proof.
  unfold load_data. intros Hl.
  inv_bind Hl. inv_bind Hl. inv_bind Hl.
  rewrite load_fact_parts_mapM in Hx1.
  unfold read_parquet in Hx, Hx0.
  destruct (dim_players_parquet st) as [players|]; [|done].
  destruct (dim_tournaments_parquet st) as [tournaments|]; [|done].
  exists players, tournaments, x1. simplify_eq.
  destruct x1 as [|part parts]; [done|].
  inv_bind Hl. by simplify_eq.
Qed.

Lemma concat_frames_columns {R} (parts : list (DataFrame R)) c part :
  part ∈ parts → c ∈ columns part → c ∈ columns (concat_frames parts).
Proof.
  intros Hp Hc. simpl. apply elem_of_remove_dups, list_elem_of_join.
  exists (columns part). split; [done|].
  apply list_elem_of_fmap. by exists part.
Qed.

(** X4.  [load_data] hands back a snapshot exactly when both dimension
    files exist, at least one data file is found, and the year and the
    month can be read from the directory names of every data file found: a
    single data file under a directory whose name has no readable value
    makes the whole load fail. *)
Theorem load_data_succeeds_iff st :
  (∃ snap, load_data st = Return snap) ↔
  is_Some (dim_players_parquet st) ∧
  is_Some (dim_tournaments_parquet st) ∧
  found_partitions st ≠ [] ∧
  Forall (λ p, ∃ y m, partition_value p.1.1 = Return y ∧
                      partition_value p.1.2 = Return m)
    (found_partitions st).
Proof.
  split.
  - intros [snap (players & tournaments & parts & Hp & Ht & Hm & Hne & _)
              %load_data_inv].
    rewrite Hp, Ht. split; [done|]. split; [done|].
    apply mapM_Return in Hm. split.
    + intros Hnil. rewrite Hnil in Hm. by inv Hm.
    + clear Hne. induction Hm as [|p df ps dfs Hs _ IH]; constructor; [|done].
      apply stamp_partition_Return in Hs as (y & m & ? & ? & _). eauto.
  - intros ([players Hp] & [tournaments Ht] & Hne & Hall).
    assert (∃ parts, Forall2 (λ p df, stamp_partition p = Return df)
                       (found_partitions st) parts) as [parts Hparts].
    { clear Hne. induction Hall as [|p ps (y & m & Hy & Hm) _ [parts IH]].
      - exists []. constructor.
      - eexists (_ :: parts). constructor; [|done].
        apply stamp_partition_Return. eauto. }
    unfold load_data. rewrite Hp, Ht. simpl.
    rewrite load_fact_parts_mapM.
    rewrite (proj2 (mapM_Return _ _ _) Hparts). simpl.
    destruct Hparts as [|p df ps dfs Hs Hrest]; [done|].
    apply stamp_partition_Return in Hs as (y & m & _ & _ & ->).
    set (parts := _ :: dfs).
    assert (∀ c, c ∈ fact_columns → c ∈ columns (concat_frames parts))
      as Hcols.
    { intros c Hc. eapply concat_frames_columns; [left | exact Hc]. }
    destruct (build_enriched_ok players tournaments (concat_frames parts))
      as [fp Hfp]; [apply Hcols; by apply (bool_decide_unpack _)..|].
    rewrite Hfp. simpl. eauto.
Qed.

(** X5.  After a successful load the dimension tables hold the rows of the
    two dimension files; [fact_matches] holds the rows of the data files
    found, file after file and in file order, none lost and none added; and
    every fact row carries the year and the month read from the names of
    the two directories its file sits in. *)
Theorem load_data_stamps_rows st snap :
  load_data st = Return snap →
  dim_players_parquet st = Some (rows (dim_players snap)) ∧
  dim_tournaments_parquet st = Some (rows (dim_tournaments snap)) ∧
  row_match <$> rows (fact_matches snap) = mjoin (snd <$> found_partitions st) ∧
  ∀ f, f ∈ rows (fact_matches snap) →
       ∃ p, p ∈ found_partitions st ∧ row_match f ∈ p.2 ∧
            partition_value p.1.1 = Return (year f) ∧
            partition_value p.1.2 = Return (month f).
Proof.
  intros (players & tournaments & parts & Hp & Ht & Hm & _ & -> & -> & ->)
    %load_data_inv.
  split; [done|]. split; [done|]. simpl.
  apply mapM_Return in Hm.
  induction Hm as [|p df ps dfs Hs _ [IH1 IH2]]; [split; [done|]|].
  { intros f Hf. by apply elem_of_nil in Hf. }
  apply stamp_partition_Return in Hs as (y & m & Hy & Hmo & ->).
  rewrite !fmap_cons, !mjoin_cons. cbn [rows snd]. split.
  - rewrite fmap_app, IH1. f_equal.
    rewrite <- list_fmap_compose. apply list_fmap_id.
  - intros f. rewrite elem_of_app. intros [Hf | Hf].
    + apply list_elem_of_fmap in Hf as (r & -> & Hr).
      exists p. split; [left|]. by simpl.
    + destruct (IH2 f Hf) as (p' & Hp' & Hrest).
      exists p'. split; [by right | done].
Qed.

(** X6.  After a successful load, [health] reports the number of rows of
    the two dimension files and the total number of rows of the data files
    found. *)
Theorem health_reports_loaded_counts st snap now :
  load_data st = Return snap →
  ∃ players tournaments,
    dim_players_parquet st = Some players ∧
    dim_tournaments_parquet st = Some tournaments ∧
    health snap now =
    OK (mkHealth "healthy" now
          (Z.of_nat (length players)) (Z.of_nat (length tournaments))
          (Z.of_nat (length (mjoin (snd <$> found_partitions st))))).
Proof.
  intros (players & tournaments & parts & Hp & Ht & Hm & _ & Hdp & Hdt & Hfm)
    %load_data_inv.
  exists players, tournaments. split; [done|]. split; [done|].
  unfold health, len. rewrite Hdp, Hdt, Hfm. simpl. do 3 f_equal.
  apply mapM_Return in Hm. clear Hp Ht Hdp Hdt Hfm.
  induction Hm as [|p df ps dfs Hs _ IH]; [done|].
  apply stamp_partition_Return in Hs as (y & m & _ & _ & ->).
  rewrite !fmap_cons, !mjoin_cons, !length_app. cbn [rows snd].
  by rewrite IH, length_fmap.
Qed.

End LoaderOutcome.

(** ** Enrichment without any assumption on the identifiers *)

Lemma left_join_covers {L R LR} (lkey : L → Z) (rkey : R → Z)
    (pack : L → option R → LR) (left : list L) (right : list R) l :
  l ∈ left → ∃ o, pack l o ∈ left_join lkey rkey pack left right.
Proof.
  intros Hl. unfold left_join.
  destruct (filter (λ r, rkey r = lkey l) right) as [|r rs] eqn:Hf.
  - exists None. apply list_elem_of_bind. exists l. split; [|done].
    rewrite Hf. left.
  - exists (Some r). apply list_elem_of_bind. exists l. split; [|done].
    rewrite Hf. apply list_elem_of_fmap. exists r. split; [done|left].
Qed.

Lemma left_join_length {L R LR} (lkey : L → Z) (rkey : R → Z)
    (pack : L → option R → LR) (left : list L) (right : list R) :
  (length left ≤ length (left_join lkey rkey pack left right))%nat.
Proof.
  unfold left_join. induction left as [|l left IH]; [done|].
  rewrite bind_cons, length_app. cbn [length].
  destruct (filter (λ r, rkey r = lkey l) right) as [|r rs];
    [|rewrite fmap_cons]; cbn [length]; lia.
Qed.

Section EnrichmentInGeneral.
Context `{Runtime}.

Lemma build_enriched_joins dp dt fm fp :
  build_enriched dp dt fm = Return fp →
  rows fp =
  left_join
    (λ r : FactRow * option PlayerRow * option PlayerRow * option PlayerRow,
       tournament_id r.1.1.1) dt_tournament_id
    (λ r t, mkEnriched r.1.1.1 r.1.1.2 r.1.2 r.2 t)
    (left_join
       (λ r : FactRow * option PlayerRow * option PlayerRow, winner_id r.1.1)
       player_id pair
       (left_join (λ r : FactRow * option PlayerRow, p2_id r.1) player_id pair
          (left_join (λ f : FactRow, p1_id f) player_id pair
             (rows fm) (rows dp))
          (rows dp))
       (rows dp))
    (rows dt).
Proof.
  intros Hb. unfold build_enriched in Hb.
  inv_bind Hb. inv_bind Hb. inv_bind Hb. inv_bind Hb.
  apply merge_rows in Hb, Hx, Hx0, Hx1. apply select_columns_rows in Hx2.
  simpl in *. by rewrite Hb, Hx1, Hx0, Hx, Hx2.
Qed.

(** X7.  Whatever the dimension tables hold, duplicated identifiers
    included, the four left merges drop no fact row and invent none: the
    fact rows of [fact_plus] are exactly the rows of [fact_matches],
    [fact_plus] is at least as long, and what a merge attached to a row is
    a dimension row of the requested identifier, or nothing when the
    dimension has no row of that identifier. *)
Theorem load_data_joins_drop_nothing st snap :
  load_data st = Return snap →
  (∀ f, f ∈ rows (fact_matches snap) ↔
        ∃ m, m ∈ rows (fact_plus snap) ∧ fact m = f) ∧
  len (fact_matches snap) ≤ len (fact_plus snap) ∧
  ∀ m : Enriched, m ∈ rows (fact_plus snap) →
    join_hit player_id (rows (dim_players snap)) (p1_id m) (p1_row m) ∧
    join_hit player_id (rows (dim_players snap)) (p2_id m) (p2_row m) ∧
    join_hit player_id (rows (dim_players snap)) (winner_id m) (w_row m) ∧
    join_hit dt_tournament_id (rows (dim_tournaments snap))
      (tournament_id m) (t_row m).
Proof.
  intros Hb%load_data_build. split; [|split].
  - intros f. split.
    + intros Hf. rewrite (build_enriched_joins _ _ _ _ Hb).
      eapply left_join_covers in Hf as [a Ha].
      eapply left_join_covers in Ha as [b Hb'].
      eapply left_join_covers in Hb' as [w Hw].
      eapply left_join_covers in Hw as [t Ht].
      eexists. split; [exact Ht|done].
    + intros (m & Hm & <-).
      by destruct (fact_plus_player_rows _ _ _ _ m Hb Hm) as (_ & _ & _ & _ & ?).
  - unfold len. rewrite (build_enriched_joins _ _ _ _ Hb).
    apply inj_le.
    repeat (etrans; [|apply left_join_length]). done.
  - intros m Hm.
    destruct (fact_plus_player_rows _ _ _ _ m Hb Hm) as (? & ? & ? & ? & _).
    done.
Qed.

(** X8.  With unique identifiers, every denormalised field is the
    dimension lookup of its identifier: each row of [fact_plus] is its fact
    row together with the player rows of [p1_id], [p2_id] and [winner_id]
    and the tournament row of [tournament_id], each absent exactly when the
    dimension has no row of that identifier. *)
Theorem load_data_enriches_by_lookup st snap :
  load_data st = Return snap →
  NoDup (player_id <$> rows (dim_players snap)) →
  NoDup (dt_tournament_id <$> rows (dim_tournaments snap)) →
  rows (fact_plus snap) =
  enrich (rows (dim_players snap)) (rows (dim_tournaments snap))
    <$> rows (fact_matches snap).
Proof.
  intros Hb%load_data_build Hp Ht. by apply build_enriched_rows.
Qed.

End EnrichmentInGeneral.

(** ** More on [head_to_head] *)

Section HeadToHeadMore.
Context `{Runtime}.

Lemma str_contains_Raise query e :
  str_contains query = Raise e ↔
  e = re_error ∧ re_compile_ignorecase query = None.
Proof.
  unfold str_contains.
  destruct (re_compile_ignorecase query); [by split; [|intros [_ ?]]|].
  split; [by intros [= <-] | by intros [-> _]].
Qed.

Lemma str_contains_accepts_text query contains x :
  str_contains query = Return contains → contains x → is_Some x.
Proof.
  intros Hc Hx. destruct x; [done|].
  by rewrite (str_contains_None _ _ Hc) in Hx.
Qed.

Lemma h2h_rows_Return fact_plus p1 p2 h2h :
  h2h_rows fact_plus p1 p2 = Return h2h ↔
  ∃ c1 c2,
    str_contains p1 = Return c1 ∧ str_contains p2 = Return c2 ∧
    h2h = sort_values_Date_desc (filter (λ m, pair_matches c1 c2 m) fact_plus).
Proof.
  unfold h2h_rows. split.
  - intros Hh. inv_bind Hh. inv_bind Hh. simplify_eq. eauto.
  - intros (c1 & c2 & -> & -> & ->). done.
Qed.

Lemma pair_matches_names p1 p2 c1 c2 (m : Enriched) :
  str_contains p1 = Return c1 → str_contains p2 = Return c2 →
  pair_matches c1 c2 m → is_Some (p1_name m) ∧ is_Some (p2_name m).
Proof.
  intros H1 H2. unfold pair_matches.
  intros [[Ha Hb]%andb_True | [Ha Hb]%andb_True]%orb_True; split.
  - exact (str_contains_accepts_text _ _ _ H1 Ha).
  - exact (str_contains_accepts_text _ _ _ H2 Hb).
  - exact (str_contains_accepts_text _ _ _ H2 Ha).
  - exact (str_contains_accepts_text _ _ _ H1 Hb).
Qed.

(** X9.  [head_to_head] does not depend on the order of its two
    arguments: the rows, the canonical names (taken from the latest match,
    not from the arguments), the tallies and the failure are the same. *)
Theorem head_to_head_symmetric snap now player1 player2 :
  head_to_head snap now player1 player2 =
  head_to_head snap now player2 player1.
Proof.
  unfold head_to_head.
  assert (h2h_rows (rows (fact_plus snap)) (replace_pct20 player1)
            (replace_pct20 player2) =
          h2h_rows (rows (fact_plus snap)) (replace_pct20 player2)
            (replace_pct20 player1)) as ->; [|done].
  unfold h2h_rows.
  destruct (str_contains (replace_pct20 player1)) as [c1|e1] eqn:H1,
           (str_contains (replace_pct20 player2)) as [c2|e2] eqn:H2;
    simpl; try done.
  - do 2 f_equal. apply list_filter_iff. intros m.
    by rewrite (orb_comm (c1 (p1_name m) && c2 (p2_name m))).
  - apply str_contains_Raise in H1 as [-> _].
    by apply str_contains_Raise in H2 as [-> _].
Qed.

(** X10.  In a successful answer the two canonical names are the names of
    the two sides of a match of the pair that no match of the pair is more
    recent than, and neither is null; [total] is the number of rows of the
    snapshot whose two sides are accepted by the two queries in either
    order; and [recent_matches] shows the first [min 10 total] rows of
    these in an order of non-increasing date. *)
Theorem head_to_head_latest_match snap now player1 player2 body :
  head_to_head snap now player1 player2 = Return (OK body) →
  ∃ c1 c2 latest h2h,
    str_contains (replace_pct20 player1) = Return c1 ∧
    str_contains (replace_pct20 player2) = Return c2 ∧
    h2h ≡ₚ filter (λ m, pair_matches c1 c2 m) (rows (fact_plus snap)) ∧
    StronglySorted (λ a b : Enriched, Date b ≤ Date a) h2h ∧
    head h2h = Some latest ∧
    (∀ m : Enriched, m ∈ rows (fact_plus snap) → pair_matches c1 c2 m →
                     Date m ≤ Date latest) ∧
    h_player_1 body = p1_name latest ∧ is_Some (h_player_1 body) ∧
    h_player_2 body = p2_name latest ∧ is_Some (h_player_2 body) ∧
    total (h_head_to_head body) =
      Z.of_nat (length (filter (λ m, pair_matches c1 c2 m)
                          (rows (fact_plus snap)))) ∧
    h_recent_matches body = recent_match <$> take 10 h2h ∧
    Z.of_nat (length (h_recent_matches body)) =
      Z.min 10 (total (h_head_to_head body)).
Proof.
  intros (first & rest & Hh & ->)%head_to_head_OK.
  apply h2h_rows_Return in Hh as (c1 & c2 & H1 & H2 & Hh).
  exists c1, c2, first, (first :: rest).
  pose proof (sort_values_Date_desc_perm
    (filter (λ m, pair_matches c1 c2 m) (rows (fact_plus snap)))) as Hperm.
  pose proof (sort_values_Date_desc_strongly
    (filter (λ m, pair_matches c1 c2 m) (rows (fact_plus snap)))) as Hsorted.
  rewrite <- Hh in Hperm, Hsorted.
  assert (pair_matches c1 c2 first) as Hfirst.
  { assert (first ∈ first :: rest) as Hin by left.
    rewrite Hperm in Hin. by apply list_elem_of_filter in Hin as [? _]. }
  split; [done|]. split; [done|]. split; [done|]. split; [done|].
  split; [done|]. split.
  { intros m Hm Hpair.
    assert (m ∈ first :: rest) as Hin.
    { rewrite Hperm. by apply list_elem_of_filter. }
    apply elem_of_cons in Hin as [-> | Hin]; [lia|].
    apply StronglySorted_cons in Hsorted as [Hall _].
    by apply (proj1 (Forall_forall _ _) Hall). }
  cbn [h_player_1 h_player_2 h_head_to_head total h_recent_matches].
  destruct (pair_matches_names _ _ _ _ _ H1 H2 Hfirst) as [??].
  repeat (split; [done|]). split.
  { by rewrite <- Hperm. }
  split; [done|].
  rewrite length_fmap, length_take. lia.
Qed.

End HeadToHeadMore.

(** ** Not-found answers of the query routes *)

Lemma filter_nil_iff {A} (P : A → Prop) `{!∀ x, Decision (P x)} (l : list A) :
  filter P l = [] ↔ ∀ x, x ∈ l → ¬ P x.
Proof.
  split.
  - intros Hnil x Hx HP. by eapply (filter_nil_not_elem_of P).
  - intros Hnone. induction l as [|x l IH]; [done|].
    rewrite filter_cons_False by (apply Hnone; left).
    apply IH. intros y Hy. apply Hnone. by right.
Qed.

Section RouteOutcomes.
Context `{Runtime}.

(** X12.  [head_to_head] and [tournament_details] answer NotFound exactly
    when the names are well-formed and no row of the snapshot is accepted;
    [player_stats] answers NotFound exactly when no player row is accepted
    or the first accepted player has no collected match, with a message
    that tells the two cases apart. *)
Theorem query_routes_not_found snap now name player1 player2 msg :
  (player_stats snap now name = Return (NotFound msg) ↔
   ∃ ms, matching_rows player_name (rows (dim_players snap))
           (replace_pct20 name) = Return ms ∧
         ((ms = [] ∧
           msg = "Player '" +:+ replace_pct20 name +:+ "' not found") ∨
          (∃ first rest, ms = first :: rest ∧
             player_matches (rows (fact_plus snap)) (player_name first) = [] ∧
             msg = "No matches found for player"))) ∧
  (head_to_head snap now player1 player2 = Return (NotFound msg) ↔
   msg = "No head-to-head matches found" ∧
   ∃ c1 c2,
     str_contains (replace_pct20 player1) = Return c1 ∧
     str_contains (replace_pct20 player2) = Return c2 ∧
     ∀ m : Enriched, m ∈ rows (fact_plus snap) → ¬ pair_matches c1 c2 m) ∧
  (tournament_details snap now name = Return (NotFound msg) ↔
   msg = "Tournament not found" ∧
   ∃ c, str_contains (replace_pct20 name) = Return c ∧
        ∀ m : Enriched, m ∈ rows (fact_plus snap) → ¬ c (Tournament m)).
Proof.
  split; [|split].
  - split.
    + intros Hp.
      destruct (matching_rows player_name (rows (dim_players snap))
                  (replace_pct20 name)) as [[|first rest]|e] eqn:Hm.
      * unfold player_stats in Hp. rewrite Hm in Hp. simpl in Hp.
        exists []. split; [done|]. left. by simplify_eq.
      * rewrite (player_stats_resolved _ _ _ _ _ Hm) in Hp.
        exists (first :: rest). split; [done|]. right.
        exists first, rest. split; [done|].
        case_bool_decide as Hlen; simplify_eq.
        split; [|done]. by apply nil_length_inv.
      * unfold player_stats in Hp. rewrite Hm in Hp. done.
    + intros (ms & Hm & [[-> ->] | (first & rest & -> & Hnil & ->)]).
      * unfold player_stats. by rewrite Hm.
      * rewrite (player_stats_resolved _ _ _ _ _ Hm). simpl.
        by rewrite Hnil.
  - unfold head_to_head. split.
    + intros Hh. inv_bind Hh. destruct x as [|first rest]; simplify_eq.
      split; [done|].
      apply h2h_rows_Return in Hx as (c1 & c2 & H1 & H2 & Hnil).
      exists c1, c2. split; [done|]. split; [done|].
      intros m Hm Hpair.
      assert (m ∈ sort_values_Date_desc
                (filter (λ m, pair_matches c1 c2 m) (rows (fact_plus snap))))
        as Hin.
      { rewrite sort_values_Date_desc_perm. by apply list_elem_of_filter. }
      rewrite <- Hnil in Hin. by apply elem_of_nil in Hin.
    + intros (-> & c1 & c2 & H1 & H2 & Hnone).
      assert (h2h_rows (rows (fact_plus snap)) (replace_pct20 player1)
                (replace_pct20 player2) = Return []) as ->; [|done].
      apply h2h_rows_Return. exists c1, c2. split; [done|]. split; [done|].
      rewrite (proj2 (filter_nil_iff (λ m, pair_matches c1 c2 m) _) Hnone).
      symmetry. apply Permutation_nil_r, sort_values_Date_desc_perm.
  - unfold tournament_details. split.
    + intros Ht. inv_bind Ht. destruct x as [|first rest]; simplify_eq.
      split; [done|].
      apply matching_rows_Return in Hx as (c & Hc & Hnil).
      exists c. split; [done|].
      by apply (filter_nil_iff (λ m : Enriched, c (Tournament m))).
    + intros (-> & c & Hc & Hnone).
      unfold matching_rows. rewrite Hc. simpl.
      by rewrite (proj2 (filter_nil_iff
                          (λ m : Enriched, c (Tournament m)) _) Hnone).
Qed.

End RouteOutcomes.

(** ** The surface breakdown against the career record *)

Lemma filter3_disjoint_length {A} (P Q R : A → Prop)
    `{!∀ x, Decision (P x), !∀ x, Decision (Q x), !∀ x, Decision (R x)}
    (l : list A) :
  (∀ x, P x → Q x → False) → (∀ x, P x → R x → False) →
  (∀ x, Q x → R x → False) →
  (length (filter P l) + length (filter Q l) + length (filter R l)
   ≤ length l)%nat ∧
  (Forall (λ x, P x ∨ Q x ∨ R x) l ↔
   (length (filter P l) + length (filter Q l) + length (filter R l)
    = length l)%nat).
Proof.
  intros HPQ HPR HQR. induction l as [|x l [IH1 IH2]]; [done|].
  rewrite !filter_cons, Forall_cons.
  destruct (decide (P x)), (decide (Q x)), (decide (R x));
    try (by exfalso; eauto); cbn [length]; (split; [lia|]); split.
  all: try (intros [Hx Hl]; apply IH2 in Hl; lia).
  all: try (intros Hlen; split; [tauto | apply IH2; lia]).
  all: try (intros [Hx Hl]; exfalso; tauto).
  intros Hlen. lia.
Qed.

Lemma surface_breakdown_count all surface :
  surface ∈ ["Hard"; "Clay"; "Grass"] →
  surface_matches (surface_breakdown all) (lower surface) =
    Z.of_nat (length (filter (λ r, Surface r.1 = Some surface) all)) ∧
  surface_wins (surface_breakdown all) (lower surface) =
    sum_is_win (filter (λ r, Surface r.1 = Some surface) all).
Proof.
  intros Hin. unfold surface_matches, surface_wins.
  assert (filter (λ r, col_eq (Surface r.1) (Some surface)) all =
          filter (λ r, Surface r.1 = Some surface) all) as Hf.
  { apply list_filter_iff. intros r. apply col_eq_Some. }
  destruct (surface_breakdown all !! lower surface) as [e|] eqn:Hl.
  - apply surface_breakdown_lookup in Hl as (s' & Hin' & Heq & _ & ->).
    assert (s' = surface) as ->.
    { rewrite !elem_of_cons in Hin, Hin'.
      destruct Hin as [-> | [-> | [-> | Hin]]];
        [..|by apply elem_of_nil in Hin];
        destruct Hin' as [-> | [-> | [-> | Hin']]];
        try (by apply elem_of_nil in Hin'); try done. }
    simpl. by rewrite Hf.
  - assert (¬ on_surface all surface) as Hnone.
    { intros Hon.
      assert (surface_breakdown all !! lower surface
              = Some (surface_entry all surface)) as Hl'.
      { apply surface_breakdown_lookup. by exists surface. }
      congruence. }
    assert (filter (λ r, Surface r.1 = Some surface) all = []) as ->;
      [|split; reflexivity].
    apply filter_nil_iff. intros r Hr Hs. apply Hnone.
    apply on_surface_alt. by exists r.
Qed.

Lemma sum_is_win_filter3 (P Q R : Enriched * bool → Prop)
    `{!∀ x, Decision (P x), !∀ x, Decision (Q x), !∀ x, Decision (R x)}
    (all : list (Enriched * bool)) :
  (∀ x, P x → Q x → False) → (∀ x, P x → R x → False) →
  (∀ x, Q x → R x → False) →
  sum_is_win (filter P all) + sum_is_win (filter Q all) +
  sum_is_win (filter R all) ≤ sum_is_win all.
Proof.
  intros HPQ HPR HQR. unfold sum_is_win.
  cut (length (filter (λ r, r.2 = true) (filter P all)) +
       length (filter (λ r, r.2 = true) (filter Q all)) +
       length (filter (λ r, r.2 = true) (filter R all))
       ≤ length (filter (λ r, r.2 = true) all))%nat; [lia|].
  induction all as [|x all IH]; [done|].
  rewrite !(filter_cons _ x all).
  destruct (decide (P x)), (decide (Q x)), (decide (R x));
    try (by exfalso; eauto);
    rewrite ?(filter_cons (λ r, r.2 = true) x);
    destruct (decide (x.2 = true)); cbn [length]; lia.
Qed.

Section SurfaceTotals.
Context `{Runtime}.

(** X13.  The three surface entries never count more than the career
    record: the matches (and the wins) reported under [hard], [clay] and
    [grass], an absent key counting for zero, add up to at most
    [total_matches] (and [wins]); the matches add up to [total_matches]
    if and only if every collected match is on Hard, Clay or Grass, so that
    matches on any other surface, or without a known tournament, appear in
    the career record only. *)
Theorem player_stats_surfaces_within_career snap now name body :
  player_stats snap now name = Return (OK body) →
  let by_surface := ps_by_surface body in
  let all := player_matches (rows (fact_plus snap)) (ps_player body) in
  surface_matches by_surface "hard" + surface_matches by_surface "clay" +
    surface_matches by_surface "grass" ≤ total_matches (ps_career body) ∧
  surface_wins by_surface "hard" + surface_wins by_surface "clay" +
    surface_wins by_surface "grass" ≤ wins (ps_career body) ∧
  (Forall (λ r, Surface r.1 = Some "Hard" ∨ Surface r.1 = Some "Clay" ∨
                Surface r.1 = Some "Grass") all ↔
   surface_matches by_surface "hard" + surface_matches by_surface "clay" +
     surface_matches by_surface "grass" = total_matches (ps_career body)).
Proof.
  intros (first & rest & _ & _ & ->)%player_stats_OK. simpl.
  set (all := player_matches _ _).
  destruct (surface_breakdown_count all "Hard") as [Hh Hhw];
    [by apply (bool_decide_unpack _)|].
  destruct (surface_breakdown_count all "Clay") as [Hc Hcw];
    [by apply (bool_decide_unpack _)|].
  destruct (surface_breakdown_count all "Grass") as [Hg Hgw];
    [by apply (bool_decide_unpack _)|].
  change (lower "Hard") with "hard" in *.
  change (lower "Clay") with "clay" in *.
  change (lower "Grass") with "grass" in *.
  rewrite Hh, Hc, Hg, Hhw, Hcw, Hgw.
  destruct (filter3_disjoint_length
    (λ r : Enriched * bool, Surface r.1 = Some "Hard")
    (λ r, Surface r.1 = Some "Clay") (λ r, Surface r.1 = Some "Grass") all)
    as [Hle Heq]; [congruence..|].
  split; [lia|]. split.
  - apply (sum_is_win_filter3
      (λ r : Enriched * bool, Surface r.1 = Some "Hard")
      (λ r, Surface r.1 = Some "Clay") (λ r, Surface r.1 = Some "Grass"));
      congruence.
  - rewrite Heq. lia.
Qed.

End SurfaceTotals.

(** ** More on [tournament_details] *)

Section TournamentHeader.
Context `{Runtime}.

(** X14.  The header of a successful answer comes from the first row of
    the snapshot, in snapshot order, whose tournament name is accepted, not
    from the most recent one: no row before it is accepted, its name is not
    null, and [total_matches] counts every accepted row, of whatever
    tournament.  The list of champions is empty exactly when no accepted
    row has the round [The Final]. *)
Theorem tournament_details_header snap now name body :
  tournament_details snap now name = Return (OK body) →
  ∃ c (before after : list Enriched) (first : Enriched),
    str_contains (replace_pct20 name) = Return c ∧
    rows (fact_plus snap) = (before ++ first :: after)%list ∧
    c (Tournament first) ∧
    Forall (λ m : Enriched, ¬ c (Tournament m)) before ∧
    td_tournament body = Tournament first ∧
    is_Some (td_tournament body) ∧
    td_surface body = Surface first ∧
    td_series body = Series first ∧
    td_total_matches body =
      Z.of_nat (length (filter (λ m : Enriched, c (Tournament m))
                          (rows (fact_plus snap)))) ∧
    1 ≤ td_total_matches body ∧
    (td_recent_champions body = [] ↔
     ∀ m : Enriched, m ∈ rows (fact_plus snap) → c (Tournament m) →
                     Round m ≠ "The Final").
Proof.
  intros (first & rest & Hm & ->)%tournament_details_OK.
  apply matching_rows_Return in Hm as (c & Hc & Hm).
  symmetry in Hm.
  destruct (filter_first_split _ _ _ _ Hm)
    as (before & after & Hsplit & Hf & Hb & _).
  exists c, before, after, first.
  cbn [td_tournament td_surface td_series td_total_matches
       td_recent_champions].
  split; [done|]. split; [done|]. split; [done|]. split; [done|].
  split; [done|].
  split; [exact (str_contains_accepts_text _ _ _ Hc Hf)|].
  split; [done|]. split; [done|]. split; [by rewrite Hm|].
  split; [cbn [length]; lia|].
  unfold recent_finals. rewrite <- Hm. split.
  - intros Hnil m Hin Hcm Hr.
    apply fmap_nil_inv in Hnil.
    assert (m ∈ sort_values_Date_desc
              (filter (λ m : Enriched, Round m = "The Final")
                 (filter (λ m : Enriched, c (Tournament m))
                    (rows (fact_plus snap))))) as Hs.
    { rewrite sort_values_Date_desc_perm.
      apply list_elem_of_filter. split; [done|].
      by apply list_elem_of_filter. }
    destruct (sort_values_Date_desc _) as [|x xs]; [by apply elem_of_nil in Hs|].
    done.
  - intros Hnone.
    assert (filter (λ m : Enriched, Round m = "The Final")
              (filter (λ m : Enriched, c (Tournament m))
                 (rows (fact_plus snap))) = []) as ->.
    { apply filter_nil_iff. intros m [Hcm Hin]%list_elem_of_filter Hr.
      by apply (Hnone m). }
    by rewrite (proj1 (Permutation_nil_r _) (sort_values_Date_desc_perm [])).
Qed.

End TournamentHeader.

(** ** The two list routes *)

Lemma slice_to_length {A} (limit : Z) (l : list A) :
  Z.of_nat (length (slice_to limit l)) =
  sliced_length limit (Z.of_nat (length l)).
Proof.
  unfold slice_to, sliced_length.
  destruct (0 <=? limit) eqn:Hl; rewrite length_take; lia.
Qed.

Lemma slice_to_prefix {A} (limit : Z) (l : list A) :
  slice_to limit l `prefix_of` l.
Proof.
  unfold slice_to. destruct (0 <=? limit);
    eexists; symmetry; apply take_drop.
Qed.

Lemma sliced_length_bounds limit n :
  0 ≤ n → 0 ≤ sliced_length limit n ≤ n.
Proof. unfold sliced_length. destruct (0 <=? limit) eqn:Hl; lia. Qed.

Lemma prefix_occurs sub s :
  String.prefix sub s = true ↔ ∃ after, s = sub +:+ after.
Proof.
  revert s. induction sub as [|c sub IH]; intros s.
  - split; [|by destruct s]. intros _. by exists s.
  - destruct s as [|d s]; [split; [done | by intros [? ?]]|].
    cbn [String.prefix]. destruct (ascii_dec c d) as [->|Hne].
    + rewrite IH. split; intros [after Ha]; exists after.
      * by rewrite Ha.
      * by injection Ha.
    + split; [done|]. intros [after Ha]. injection Ha as Hcd _. by subst.
Qed.

Lemma str_in_occurs sub s : str_in sub s = true ↔ occurs_in sub s.
Proof.
  unfold occurs_in. induction s as [|d s IH]; cbn [str_in].
  - rewrite orb_false_r, prefix_occurs. split.
    + intros [after Ha]. by exists EmptyString, after.
    + intros (before & after & Ha). destruct before; [by exists after|done].
  - rewrite orb_true_iff, prefix_occurs, IH. split.
    + intros [[after Ha] | (before & after & Ha)].
      * by exists EmptyString, after.
      * exists (String d before), after. by rewrite Ha.
    + intros (before & after & Ha). destruct before as [|d' before].
      * left. by exists after.
      * right. exists before, after. by injection Ha.
Qed.

Section ListRoutes.
Context `{Runtime}.

Lemma search_players_Return search players found :
  search_players search players = Return found ↔
  Forall is_Some players ∧
  found = filter (λ p, name_contains search p) players.
Proof.
  revert found. induction players as [|p players IH]; intros found.
  - simpl. split; [by intros [= <-] | by intros [_ ->]].
  - destruct p as [name|]; cbn [search_players].
    + destruct (search_players search players) as [rest|e] eqn:Hs; simpl.
      * specialize (IH rest). destruct (proj1 IH eq_refl) as [Hall ->].
        rewrite filter_cons. cbn [name_contains].
        destruct (str_in search (str_lower name)) eqn:Hin.
        -- rewrite decide_True by done.
           split; [intros [= <-] | intros [_ ->]]; [|done].
           split; [constructor; [by eexists | done] | done].
        -- rewrite decide_False by (by intros []).
           split; [intros [= <-] | intros [_ ->]]; [|done].
           split; [constructor; [by eexists | done] | done].
      * split; [done|]. intros [Hall _]. apply Forall_cons in Hall as [_ Hall].
        by pose proof (proj2 (IH _) (conj Hall eq_refl)).
    + split; [done|]. intros [Hall _]. apply Forall_cons in Hall as [[? ?] _].
      done.
Qed.

Lemma limit_arg_Raise limit e :
  limit_arg limit = Raise e →
  e = ValueError ∧ ∃ text, limit = Some text ∧ py_int text = None.
Proof.
  unfold limit_arg. destruct limit as [text|]; [|done].
  destruct (py_int text) eqn:Hi; [done|]. intros [= <-]. eauto.
Qed.

(** X15.  A successful answer of [list_players] is fixed by the player
    dimension, the search text and the limit.  The names found are all the
    names of the table when the search is absent or empty, and otherwise
    the names in which the lower-cased search text occurs once they are
    lower-cased, each as often as the table holds it and in table order.
    [total] counts the names found, [players] is the list of the names
    found cut to [limit], hence a prefix of it, and [count], the length of
    [players], is [min(limit, total)] for a limit that is not negative and
    [max(0, total + limit)] for a negative one, which drops names from the
    end. *)
Theorem list_players_answer snap q limit body :
  list_players snap q limit = Return (OK body) →
  ∃ n found,
    limit_arg limit = Return n ∧
    found =
      (if bool_decide (str_lower (default "" q) = "")
       then player_name <$> rows (dim_players snap)
       else filter (λ p, name_contains (str_lower (default "" q)) p)
              (player_name <$> rows (dim_players snap))) ∧
    (∀ p, name_contains (str_lower (default "" q)) p ↔
          ∃ name, p = Some name ∧
                  occurs_in (str_lower (default "" q)) (str_lower name)) ∧
    pl_total body = Z.of_nat (length found) ∧
    pl_players body = slice_to n found ∧
    pl_players body `prefix_of` found ∧
    pl_count body = Z.of_nat (length (pl_players body)) ∧
    pl_count body = sliced_length n (pl_total body) ∧
    0 ≤ pl_count body ≤ pl_total body.
Proof.
  unfold list_players. intros Hl. inv_bind Hl. inv_bind Hl. simplify_eq.
  rename x into n, x0 into found.
  exists n, found. split; [done|]. cbn [pl_count pl_total pl_players].
  split.
  { case_bool_decide as Hq; [by simplify_eq|].
    by apply search_players_Return in Hx0 as [_ ->]. }
  split.
  { intros [name|]; cbn [name_contains].
    - rewrite Is_true_true, str_in_occurs. split.
      + intros Hocc. by exists name.
      + by intros (name' & [= <-] & Hocc).
    - split; [done | by intros (name' & [=] & _)]. }
  split; [done|]. split; [done|].
  split; [apply slice_to_prefix|]. split; [done|].
  rewrite slice_to_length. split; [done|].
  apply sliced_length_bounds. lia.
Qed.

(** X16.  [list_players] raises in two cases only: [ValueError] when the
    limit is not the text of an integer, and otherwise [AttributeError]
    when a search text is given and some name of the player dimension is
    null, whether or not that name comes before the limit. *)
Theorem list_players_raises snap q limit e :
  list_players snap q limit = Raise e ↔
  (e = ValueError ∧ ∃ text, limit = Some text ∧ py_int text = None) ∨
  (e = AttributeError ∧ (∃ n, limit_arg limit = Return n) ∧
   str_lower (default "" q) ≠ "" ∧
   None ∈ player_name <$> rows (dim_players snap)).
Proof.
  unfold list_players.
  destruct (limit_arg limit) as [n|e'] eqn:Hlim; simpl.
  - case_bool_decide as Hq; simpl.
    + split; [done|]. intros [[_ (text & -> & Hi)] | (_ & _ & ? & _)]; [|done].
      unfold limit_arg in Hlim. by rewrite Hi in Hlim.
    + set (names := player_name <$> rows (dim_players snap)).
      destruct (search_players (str_lower (default "" q)) names)
        as [found|e'']
        eqn:Hs; simpl.
      * apply search_players_Return in Hs as [Hall _].
        split; [done|].
        intros [[_ (text & -> & Hi)] | (_ & _ & _ & Hnone)].
        -- unfold limit_arg in Hlim. by rewrite Hi in Hlim.
        -- by destruct (proj1 (Forall_forall _ _) Hall None Hnone).
      * assert (e'' = AttributeError ∧ None ∈ names) as [-> Hnone].
        { clear -Hs. revert Hs.
          generalize (str_lower (default "" q)) as search.
          intros search. induction names as [|[name|] names IH];
            cbn [search_players]; [done| |].
          - destruct (search_players search names) eqn:Hs; [done|].
            intros [= <-]. destruct (IH eq_refl) as [-> ?].
            split; [done|by right].
          - intros [= <-]. split; [done|left]. }
        split.
        -- intros [= <-]. right. eauto.
        -- intros [[-> (text & -> & Hi)] | (-> & _)]; [|done].
           unfold limit_arg in Hlim. by rewrite Hi in Hlim.
  - apply limit_arg_Raise in Hlim as [-> (text & -> & Hi)]. split.
    + intros [= <-]. left. eauto.
    + by intros [[-> _] | (_ & [n Hn] & _)].
Qed.

(** X17.  [list_tournaments] fails only on a limit that is not the text of
    an integer.  Its answer lists tournaments of the tournament dimension
    in table order: all of them when no surface or an empty one is given,
    otherwise those whose surface, lower-cased, is the lower-cased surface
    asked for, so that tournaments without a surface are left out; [total]
    counts them, [tournaments] is their list cut to [limit], and [count]
    is its length. *)
Theorem list_tournaments_answer snap limit surface :
  (∀ e, list_tournaments snap limit surface = Raise e ↔
        e = ValueError ∧ ∃ text, limit = Some text ∧ py_int text = None) ∧
  (∀ r, list_tournaments snap limit surface = Return r →
     ∃ n body kept,
       r = OK body ∧ limit_arg limit = Return n ∧
       kept =
         (if bool_decide (default "" surface = "")
          then rows (dim_tournaments snap)
          else filter (λ t, str_lower <$> dt_Surface t
                            = Some (str_lower (default "" surface)))
                 (rows (dim_tournaments snap))) ∧
       (default "" surface ≠ "" → Forall (λ t, is_Some (dt_Surface t)) kept) ∧
       tl_total body = Z.of_nat (length kept) ∧
       tl_tournaments body = tournament_info <$> slice_to n kept ∧
       tl_tournaments body `prefix_of` (tournament_info <$> kept) ∧
       tl_count body = Z.of_nat (length (tl_tournaments body)) ∧
       tl_count body = sliced_length n (tl_total body)).
Proof.
  unfold list_tournaments. split.
  - intros e. destruct (limit_arg limit) as [n|e'] eqn:Hlim; simpl.
    + split; [done|]. intros [_ (text & -> & Hi)].
      unfold limit_arg in Hlim. by rewrite Hi in Hlim.
    + apply limit_arg_Raise in Hlim as [-> ?]. split; [by intros [= <-]|].
      by intros [-> _].
  - intros r Hr. inv_bind Hr. rename x into n.
    set (kept := match surface with
                 | Some s =>
                     if bool_decide (s = "") then rows (dim_tournaments snap)
                     else filter _ (rows (dim_tournaments snap))
                 | None => rows (dim_tournaments snap)
                 end) in Hr.
    simplify_eq. eexists n, _, kept. split; [done|]. split; [done|].
    cbn [tl_total tl_count tl_tournaments].
    assert (kept =
            (if bool_decide (default "" surface = "")
             then rows (dim_tournaments snap)
             else filter (λ t, str_lower <$> dt_Surface t
                               = Some (str_lower (default "" surface)))
                    (rows (dim_tournaments snap)))) as Hkept.
    { unfold kept. destruct surface as [s|]; simpl; [|done].
      case_bool_decide; [done|].
      apply list_filter_iff. intros t. apply col_eq_Some. }
    split; [done|]. split.
    { intros Hs. rewrite Hkept. rewrite bool_decide_false by done.
      apply Forall_forall. intros t [Ht _]%list_elem_of_filter.
      destruct (dt_Surface t); [by eexists | done]. }
    split; [done|]. split; [done|]. split.
    { destruct (slice_to_prefix n kept) as [rest Hrest].
      exists (tournament_info <$> rest).
      rewrite Hrest at 1. by rewrite fmap_app. }
    rewrite length_fmap, slice_to_length. done.
Qed.

End ListRoutes.

(** ** Decoding [%20] *)

Lemma replace_pct20_miss c s :
  c ≠ "%"%char ∨ String.prefix "20" s = false →
  replace_pct20 (String c s) = String c (replace_pct20 s).
Proof.
  intros Hmiss. destruct (ascii_dec c "%") as [->|Hc].
  - destruct Hmiss as [? | Hp]; [done|].
    destruct s as [|d s]; [done|].
    destruct (ascii_dec d "2") as [->|Hd].
    + destruct s as [|e s]; [done|].
      destruct (ascii_dec e "0") as [->|He];
        [destruct s; simpl in Hp; discriminate|].
      destruct e as [[] [] [] [] [] [] [] []]; try reflexivity. by destruct He.
    + destruct d as [[] [] [] [] [] [] [] []]; try reflexivity. by destruct Hd.
  - destruct c as [[] [] [] [] [] [] [] []]; try reflexivity. by destruct Hc.
Qed.

Lemma replace_pct20_cases s :
  s = EmptyString ∨
  (∃ s', s = String "%" (String "2" (String "0" s')) ∧
         replace_pct20 s = String " " (replace_pct20 s')) ∨
  (∃ c s', s = String c s' ∧ replace_pct20 s = String c (replace_pct20 s')).
Proof.
  destruct s as [|c s]; [by left|]. right.
  destruct (ascii_dec c "%") as [->|Hc].
  - destruct (String.prefix "20" s) eqn:Hp.
    + left. apply prefix_occurs in Hp as [s' ->]. by exists s'.
    + right. exists "%"%char, s. split; [done|].
      apply replace_pct20_miss. by right.
  - right. exists c, s. split; [done|]. apply replace_pct20_miss. by left.
Qed.

Lemma replace_pct20_keeps_no_prefix (pre : string) s :
  (pre = "0" ∨ pre = "20") →
  String.prefix pre (replace_pct20 s) = true → String.prefix pre s = true.
Proof.
  intros Hpre.
  assert (∀ t, String.prefix "0" (replace_pct20 t) = true →
               String.prefix "0" t = true) as H0.
  { intros t.
    destruct (replace_pct20_cases t) as [-> | [(t' & -> & ->) | (c & t' & -> & ->)]];
      [done..|].
    cbn [String.prefix].
    destruct (ascii_dec "0" c); [intros _; by destruct t' | done]. }
  destruct Hpre as [-> | ->]; [apply H0|].
  destruct (replace_pct20_cases s) as [-> | [(t' & -> & ->) | (c & t' & -> & ->)]];
    [done..|].
  cbn [String.prefix]. destruct (ascii_dec "2" c); [|done]. apply H0.
Qed.

Lemma replace_pct20_idemp s :
  replace_pct20 (replace_pct20 s) = replace_pct20 s.
Proof.
  remember (String.length s) as n eqn:Hn.
  revert s Hn. induction (lt_wf n) as [n _ IH]. intros s ->.
  destruct (replace_pct20_cases s) as [-> | [(t & -> & Hr) | (c & t & -> & Hr)]];
    [done| |].
  - rewrite Hr. rewrite replace_pct20_miss by (by left).
    f_equal. apply (IH (String.length t)); [simpl; lia | done].
  - rewrite Hr. rewrite replace_pct20_miss.
    + f_equal. apply (IH (String.length t)); [simpl; lia | done].
    + destruct (ascii_dec c "%") as [->|]; [right | by left].
      destruct (String.prefix "20" (replace_pct20 t)) eqn:Hp; [|done].
      apply (replace_pct20_keeps_no_prefix "20") in Hp; [|by right].
      apply prefix_occurs in Hp as [t' ->]. exfalso.
      change (replace_pct20 (String "%" (String "2" (String "0" t'))))
        with (String " " (replace_pct20 t')) in Hr.
      discriminate.
Qed.

Section Decoding.
Context `{Runtime}.

(** X18.  A name in which spaces are written [%20] and the name with the
    spaces themselves get the same answer from the three routes that
    resolve a name: decoding an already decoded name changes nothing. *)
Theorem routes_decode_pct20 snap now name player1 player2 :
  player_stats snap now (replace_pct20 name) = player_stats snap now name ∧
  head_to_head snap now (replace_pct20 player1) (replace_pct20 player2)
    = head_to_head snap now player1 player2 ∧
  head_to_head snap now (replace_pct20 player1) player2
    = head_to_head snap now player1 player2 ∧
  tournament_details snap now (replace_pct20 name)
    = tournament_details snap now name.
Proof.
  unfold player_stats, head_to_head, tournament_details.
  by rewrite !replace_pct20_idemp.
Qed.

End Decoding.

(** * The further properties on the datasets *)

Lemma dups_loaded :
  load_data (H := py_runtime) Dups.storage = Return Dups.snapshot.
Proof. vm_compute. reflexivity. Qed.

(** Witness of X2: [year=2008], [month=10=late] and a name without [=]. *)
Lemma partition_value_reads_second_field_witness :
  partition_value (H := py_runtime) "_temporary" = Raise IndexError ∧
  partition_value (H := py_runtime) ("year" +:+ "=" +:+ "2008")
    = int_of (H := py_runtime) "2008" ∧
  partition_value (H := py_runtime)
    ("month" +:+ "=" +:+ "10" +:+ "=" +:+ "late")
    = int_of (H := py_runtime) "10".
Proof.
  destruct (partition_value_reads_second_field (H := py_runtime))
    as [Hnone Hsome].
  split; [exact (Hnone "_temporary" eq_refl)|].
  split.
  - exact (proj1 (Hsome "year" "2008" eq_refl eq_refl)).
  - exact (proj2 (Hsome "month" "10" eq_refl eq_refl) "late").
Defined.

(** Witness of X5: the one data file of the second dataset, under
    [year=2013/month=10=late]. *)
Lemma load_data_stamps_rows_witness :
  load_data (H := py_runtime) Dups.storage = Return Dups.snapshot ∧
  dim_players_parquet Dups.storage = Some (rows (dim_players Dups.snapshot)) ∧
  dim_tournaments_parquet Dups.storage
    = Some (rows (dim_tournaments Dups.snapshot)) ∧
  row_match <$> rows (fact_matches Dups.snapshot)
    = mjoin (snd <$> found_partitions Dups.storage) ∧
  ∀ f, f ∈ rows (fact_matches Dups.snapshot) →
       ∃ p, p ∈ found_partitions Dups.storage ∧ row_match f ∈ p.2 ∧
            partition_value (H := py_runtime) p.1.1 = Return (year f) ∧
            partition_value (H := py_runtime) p.1.2 = Return (month f).
Proof.
  split; [exact dups_loaded|].
  exact (load_data_stamps_rows (H := py_runtime) Dups.storage Dups.snapshot
           dups_loaded).
Defined.

(** Witness of X6: seven players, four tournaments, five matches. *)
Lemma health_reports_loaded_counts_witness :
  load_data (H := py_runtime) Atp.storage = Return Atp.snapshot ∧
  ∃ players tournaments,
    dim_players_parquet Atp.storage = Some players ∧
    dim_tournaments_parquet Atp.storage = Some tournaments ∧
    health Atp.snapshot "2024-06-01T12:00:00" =
    OK (mkHealth "healthy" "2024-06-01T12:00:00"
          (Z.of_nat (length players)) (Z.of_nat (length tournaments))
          (Z.of_nat (length (mjoin (snd <$> found_partitions Atp.storage))))).
Proof.
  split; [exact atp_loaded|].
  exact (health_reports_loaded_counts (H := py_runtime) Atp.storage
           Atp.snapshot "2024-06-01T12:00:00" atp_loaded).
Defined.

(** Witness of X7: with identifier 1 on two player rows, the one fact row
    comes out twice. *)
Lemma load_data_joins_drop_nothing_witness :
  load_data (H := py_runtime) Dups.storage = Return Dups.snapshot ∧
  len (fact_matches Dups.snapshot) = 1 ∧
  len (fact_plus Dups.snapshot) = 2 ∧
  (∀ f, f ∈ rows (fact_matches Dups.snapshot) ↔
        ∃ m, m ∈ rows (fact_plus Dups.snapshot) ∧ fact m = f) ∧
  len (fact_matches Dups.snapshot) ≤ len (fact_plus Dups.snapshot) ∧
  ∀ m : Enriched, m ∈ rows (fact_plus Dups.snapshot) →
    join_hit player_id (rows (dim_players Dups.snapshot)) (p1_id m) (p1_row m) ∧
    join_hit player_id (rows (dim_players Dups.snapshot)) (p2_id m) (p2_row m) ∧
    join_hit player_id (rows (dim_players Dups.snapshot))
      (winner_id m) (w_row m) ∧
    join_hit dt_tournament_id (rows (dim_tournaments Dups.snapshot))
      (tournament_id m) (t_row m).
Proof.
  split; [exact dups_loaded|]. split; [reflexivity|]. split; [reflexivity|].
  exact (load_data_joins_drop_nothing (H := py_runtime) Dups.storage
           Dups.snapshot dups_loaded).
Defined.

(** Witness of X8. *)
Lemma load_data_enriches_by_lookup_witness :
  rows (fact_plus Atp.snapshot) =
  enrich (rows (dim_players Atp.snapshot)) (rows (dim_tournaments Atp.snapshot))
    <$> rows (fact_matches Atp.snapshot).
Proof.
  exact (load_data_enriches_by_lookup (H := py_runtime) Atp.storage
           Atp.snapshot atp_loaded atp_player_ids atp_tournament_ids).
Defined.

(** Witness of X10: Nadal against Federer; the latest match is the final
    of Wimbledon, where Federer is named first. *)
Lemma head_to_head_latest_match_witness :
  ∃ body c1 c2 latest h2h,
    head_to_head (H := py_runtime) Atp.snapshot "2024-06-01T12:00:00"
      "Nadal" "Federer" = Return (OK body) ∧
    str_contains (H := py_runtime) (replace_pct20 "Nadal") = Return c1 ∧
    str_contains (H := py_runtime) (replace_pct20 "Federer") = Return c2 ∧
    h2h ≡ₚ filter (λ m, pair_matches c1 c2 m) (rows (fact_plus Atp.snapshot)) ∧
    StronglySorted (λ a b : Enriched, Date b ≤ Date a) h2h ∧
    head h2h = Some latest ∧
    (∀ m : Enriched, m ∈ rows (fact_plus Atp.snapshot) →
                     pair_matches c1 c2 m → Date m ≤ Date latest) ∧
    h_player_1 body = p1_name latest ∧ is_Some (h_player_1 body) ∧
    h_player_2 body = p2_name latest ∧ is_Some (h_player_2 body) ∧
    total (h_head_to_head body) =
      Z.of_nat (length (filter (λ m, pair_matches c1 c2 m)
                          (rows (fact_plus Atp.snapshot)))) ∧
    h_recent_matches body = recent_match (H := py_runtime) <$> take 10 h2h ∧
    Z.of_nat (length (h_recent_matches body)) =
      Z.min 10 (total (h_head_to_head body)).
Proof.
  destruct (head_to_head_latest_match (H := py_runtime) Atp.snapshot
              "2024-06-01T12:00:00" "Nadal" "Federer" _ atp_h2h_answer)
    as (c1 & c2 & latest & h2h & Hrest).
  eexists _, c1, c2, latest, h2h. split; [exact atp_h2h_answer|].
  exact Hrest.
Defined.

(** Witness of X13: Nadal, two matches on clay and one on grass. *)
Lemma player_stats_surfaces_within_career_witness :
  ∃ body,
    player_stats (H := py_runtime) Atp.snapshot "2024-06-01T12:00:00" "nadal"
      = Return (OK body) ∧
    surface_matches (ps_by_surface body) "hard" +
      surface_matches (ps_by_surface body) "clay" +
      surface_matches (ps_by_surface body) "grass"
      ≤ total_matches (ps_career body) ∧
    surface_wins (ps_by_surface body) "hard" +
      surface_wins (ps_by_surface body) "clay" +
      surface_wins (ps_by_surface body) "grass" ≤ wins (ps_career body) ∧
    (Forall (λ r, Surface r.1 = Some "Hard" ∨ Surface r.1 = Some "Clay" ∨
                  Surface r.1 = Some "Grass")
       (player_matches (rows (fact_plus Atp.snapshot)) (ps_player body)) ↔
     surface_matches (ps_by_surface body) "hard" +
       surface_matches (ps_by_surface body) "clay" +
       surface_matches (ps_by_surface body) "grass"
       = total_matches (ps_career body)).
Proof.
  destruct atp_player_stats_nadal as (body & Hbody & _).
  exists body. split; [exact Hbody|].
  exact (player_stats_surfaces_within_career (H := py_runtime) Atp.snapshot
           "2024-06-01T12:00:00" "nadal" body Hbody).
Defined.

(** Witness of X14: [Open] is first met in the Japan Open. *)
Lemma tournament_details_header_witness :
  ∃ body c (before after : list Enriched) (first : Enriched),
    tournament_details (H := py_runtime) Atp.snapshot "2024-06-01T12:00:00"
      "Open" = Return (OK body) ∧
    str_contains (H := py_runtime) (replace_pct20 "Open") = Return c ∧
    rows (fact_plus Atp.snapshot) = (before ++ first :: after)%list ∧
    c (Tournament first) ∧
    Forall (λ m : Enriched, ¬ c (Tournament m)) before ∧
    td_tournament body = Tournament first ∧
    is_Some (td_tournament body) ∧
    td_surface body = Surface first ∧
    td_series body = Series first ∧
    td_total_matches body =
      Z.of_nat (length (filter (λ m : Enriched, c (Tournament m))
                          (rows (fact_plus Atp.snapshot)))) ∧
    1 ≤ td_total_matches body ∧
    (td_recent_champions body = [] ↔
     ∀ m : Enriched, m ∈ rows (fact_plus Atp.snapshot) → c (Tournament m) →
                     Round m ≠ "The Final").
Proof.
  destruct (tournament_details_header (H := py_runtime) Atp.snapshot
              "2024-06-01T12:00:00" "Open" _ atp_open_answer)
    as (c & before & after & first & Hrest).
  eexists _, c, before, after, first. split; [exact atp_open_answer|].
  exact Hrest.
Defined.

Lemma atp_list_players_answer :
  list_players (H := py_runtime) Atp.snapshot (Some "A") (Some "-5")
  = Return (OK (mkPlayerList 1 6 [Some "Rafael Nadal"])).
Proof. vm_compute. reflexivity. Qed.

(** Witness of X15: six names contain [a]; a limit of [-5] keeps one. *)
Lemma list_players_answer_witness :
  ∃ n found,
    list_players (H := py_runtime) Atp.snapshot (Some "A") (Some "-5")
      = Return (OK (mkPlayerList 1 6 [Some "Rafael Nadal"])) ∧
    limit_arg (H := py_runtime) (Some "-5") = Return n ∧
    found =
      filter (λ p, name_contains (H := py_runtime) "a" p)
        (player_name <$> rows (dim_players Atp.snapshot)) ∧
    (∀ p, name_contains (H := py_runtime) "a" p ↔
          ∃ name, p = Some name ∧ occurs_in "a" (lower name)) ∧
    6 = Z.of_nat (length found) ∧
    [Some "Rafael Nadal"] = slice_to n found ∧
    [Some "Rafael Nadal"] `prefix_of` found ∧
    1 = Z.of_nat (length [Some "Rafael Nadal"]) ∧
    1 = sliced_length n 6 ∧
    0 ≤ 1 ≤ 6.
Proof.
  destruct (list_players_answer (H := py_runtime) Atp.snapshot (Some "A")
              (Some "-5") _ atp_list_players_answer)
    as (n & found & Hrest).
  exists n, found. split; [exact atp_list_players_answer|].
  exact Hrest.
Defined.
